(** * Lease Lightning: the applicant store, its HTTP handlers and the decision task

    A shallow embedding of [backend/services.py] and [backend/api.py].

    - An applicant is a Python [dict] / JSON object: a finite map from field
      names to values.  Key order is not modelled (no operation observes it).
    - Dict objects live in a [heap] and are handled through references, as in
      Python: the module-level list [DEFAULTS] holds references, [_read] either
      hands out those very references (file absent, [DEFAULTS.copy()] is a
      shallow copy) or references to fresh objects ([json.load]).
    - The data file is [DATA_FILE : option (list dict)]: [None] when the file
      does not exist, otherwise the JSON array it holds.
    - Every service function runs under [_lock], so it is one atomic state
      transformer; exceptions are results of the computation monad [M]. *)

From stdpp Require Import gmap strings list fin_maps.
From Stdlib Require Import ZArith Lia.

(** ** Values, dictionaries, exceptions *)

(** The JSON values that occur in applicant records and update payloads:
    [null]/[None], integers and strings. *)
Inductive value :=
  | VNone
  | VInt (n : Z)
  | VStr (s : string).

#[global] Instance value_eq_dec : EqDecision value.
Proof. solve_decision. Defined.

Abbreviation dict := (gmap string value).
Abbreviation loc := nat.

(** [BadRef] is not a Python exception: it marks a dangling reference, which
    no well-formed state produces (see [refs_ok]). *)
Inductive exn :=
  | KeyError
  | TypeError
  | HTTPException (status_code : Z) (detail : string)
  | BadRef.

#[global] Instance exn_eq_dec : EqDecision exn.
Proof. solve_decision. Defined.

(** ** Program state and the computation monad *)

Record state := State {
  heap : list dict;               (* the dict objects of the process *)
  DEFAULTS : list loc;            (* services.DEFAULTS, a list of references *)
  DATA_FILE : option (list dict)  (* applicants.json, [None] if absent *)
}.

Definition set_heap (h : list dict) (s : state) : state :=
  State h (DEFAULTS s) (DATA_FILE s).
Definition set_file (f : option (list dict)) (s : state) : state :=
  State (heap s) (DEFAULTS s) f.

Definition M (A : Type) : Type := state → (exn + A) * state.

#[global] Instance M_ret : MRet M := λ A a s, (inr a, s).
#[global] Instance M_bind : MBind M := λ A B f c s,
  match c s with
  | (inr a, s') => f a s'
  | (inl e, s') => (inl e, s')
  end.

Definition raise {A} (e : exn) : M A := λ s, (inl e, s).
Definition lift {A} (r : exn + A) : M A := λ s, (r, s).

(** ** Python primitives *)

(** [v == w] on the values above is structural. *)
Definition py_eq (v w : value) : bool := bool_decide (v = w).

(** [v > w]: integers by value, strings lexicographically, anything else
    (mixed types, [None]) raises [TypeError]. *)
Definition py_gt (v w : value) : exn + bool :=
  match v, w with
  | VInt a, VInt b => inr (bool_decide (b < a)%Z)
  | VStr a, VStr b => inr (String.ltb b a)
  | _, _ => inl TypeError
  end.

(** [v + 1] *)
Definition py_add1 (v : value) : exn + value :=
  match v with
  | VInt n => inr (VInt (n + 1))
  | _ => inl TypeError
  end.

Definition deref (a : loc) : M dict := λ s,
  match heap s !! a with
  | Some d => (inr d, s)
  | None => (inl BadRef, s)
  end.

Definition store (a : loc) (d : dict) : M unit := λ s,
  (inr (), set_heap (<[a := d]> (heap s)) s).

(** A new dict object. *)
Definition alloc (d : dict) : M loc := λ s,
  (inr (length (heap s)), set_heap (heap s ++ [d]) s).

(** [a[k]] *)
Definition getitem (a : loc) (k : string) : M value :=
  d ← deref a;
  match d !! k with
  | Some v => mret v
  | None => raise KeyError
  end.

(** [a[k] = v] *)
Definition setitem (a : loc) (k : string) (v : value) : M unit :=
  d ← deref a; store a (<[k := v]> d).

(** [json.dump(data, f)]: the objects are serialised as they are now. *)
Fixpoint json_dump (data : list loc) : M (list dict) :=
  match data with
  | [] => mret []
  | a :: rest => d ← deref a; ds ← json_dump rest; mret (d :: ds)
  end.

(** [json.load(f)]: every object of the array becomes a fresh dict. *)
Fixpoint json_load (ds : list dict) : M (list loc) :=
  match ds with
  | [] => mret []
  | d :: rest => a ← alloc d; data ← json_load rest; mret (a :: data)
  end.

(** The data file: [DATA_FILE.exists()] with its content, and a whole-file
    rewrite. *)
Definition read_file : M (option (list dict)) := λ s, (inr (DATA_FILE s), s).
Definition write_file (ds : list dict) : M unit := λ s,
  (inr (), set_file (Some ds) s).
Definition get_DEFAULTS : M (list loc) := λ s, (inr (DEFAULTS s), s).

(** [d[k]] on a dict that is local to the running function. *)
Definition lookup_item (d : dict) (k : string) : M value :=
  match d !! k with
  | Some v => mret v
  | None => raise KeyError
  end.

(** [not x] for [x] a dict or [None]: true for [None] and the empty dict. *)
Definition py_not (x : option loc) : M bool :=
  match x with
  | None => mret true
  | Some a => d ← deref a; mret (bool_decide (d = ∅))
  end.

(** An applicant object with the eight fields of the data model. *)
Definition applicant_dict (id : value)
    (name unit_ date status risk income_match error_rate : string) : dict :=
  <["id" := id]> (<["name" := VStr name]> (<["unit" := VStr unit_]>
  (<["date" := VStr date]> (<["status" := VStr status]>
  (<["risk" := VStr risk]> (<["income_match" := VStr income_match]>
  (<["error_rate" := VStr error_rate]> ∅))))))).

(** ** backend/services.py *)

Module services.

Definition _read : M (list loc) :=
  f ← read_file;
  match f with
  | None =>
      defaults ← get_DEFAULTS;
      ds ← json_dump defaults;
      write_file ds;;
      mret defaults               (* DEFAULTS.copy(): same objects *)
  | Some ds => json_load ds
  end.

Definition _write (data : list loc) : M unit :=
  ds ← json_dump data; write_file ds.

Definition list_applicants : M (list loc) := _read.

Fixpoint get_loop (app_id : Z) (data : list loc) : M (option loc) :=
  match data with
  | [] => mret None
  | a :: rest =>
      v ← getitem a "id";
      if py_eq v (VInt app_id) then mret (Some a) else get_loop app_id rest
  end.

Definition get_applicant (app_id : Z) : M (option loc) :=
  data ← _read; get_loop app_id data.

(** [max((a["id"] for a in data), default=1000)]: the generator is
    consumed lazily, one comparison [item > maxval] per further item. *)
Fixpoint max_loop (maxval : value) (data : list loc) : M value :=
  match data with
  | [] => mret maxval
  | a :: rest =>
      item ← getitem a "id";
      b ← lift (py_gt item maxval);
      max_loop (if b : bool then item else maxval) rest
  end.

Definition max_ids (data : list loc) (default : value) : M value :=
  match data with
  | [] => mret default
  | a :: rest => item ← getitem a "id"; max_loop item rest
  end.

(** [today] is [datetime.now().strftime("%Y-%m-%d")]. *)
Definition create_applicant (name unit_ today : string) : M loc :=
  data ← _read;
  m ← max_ids data (VInt 1000);
  new_id ← lift (py_add1 m);
  new ← alloc (applicant_dict new_id name unit_ today
                 "Submitted/Manual" "Pending" "N/A" "N/A");
  _write (data ++ [new]);;
  mret new.

(** [for k, v in updates.items(): if v is not None: a[k] = v] *)
Fixpoint setitems (a : loc) (items : list (string * value)) : M unit :=
  match items with
  | [] => mret ()
  | (k, v) :: rest =>
      (if bool_decide (v = VNone) then mret () else setitem a k v);;
      setitems a rest
  end.

(** The [enumerate] loop; [data[i] = a] stores the reference that is
    already there, so only the object changes. *)
Fixpoint update_loop (app_id : Z) (updates : dict) (data rest : list loc)
    : M (option loc) :=
  match rest with
  | [] => mret None
  | a :: rest' =>
      v ← getitem a "id";
      if py_eq v (VInt app_id) then
        setitems a (map_to_list updates);;
        _write data;;
        mret (Some a)
      else update_loop app_id updates data rest'
  end.

Definition update_applicant (app_id : Z) (updates : dict) : M (option loc) :=
  data ← _read; update_loop app_id updates data data.

(** [[a for a in data if a["id"] != app_id]] *)
Fixpoint delete_filter (app_id : Z) (data : list loc) : M (list loc) :=
  match data with
  | [] => mret []
  | a :: rest =>
      v ← getitem a "id";
      new ← delete_filter app_id rest;
      mret (if py_eq v (VInt app_id) then new else a :: new)
  end.

Definition delete_applicant (app_id : Z) : M bool :=
  data ← _read;
  new ← delete_filter app_id data;
  if bool_decide (length new = length data) then mret false
  else _write new;; mret true.

(** *** Agent / background work *)

Section decision.
(** [s % k] on a string is printf-style formatting, left abstract. *)
Variable py_format : string → Z → exn + string.

(** [v % k] for [k > 0]; on integers Python's [%] is the floor modulus. *)
Definition py_mod (v : value) (k : Z) : exn + value :=
  match v with
  | VInt n => inr (VInt (n `mod` k))
  | VStr s =>
      match py_format s k with
      | inr r => inr (VStr r)
      | inl e => inl e
      end
  | VNone => inl TypeError
  end.

(** [sleep] is what the rest of the process does to the store during
    [await asyncio.sleep(2)]; [now] is [datetime.utcnow().isoformat()].
    Calls of other threads that fall between the end of the sleep and the
    write-back are counted with [sleep]: outside [_lock] the task only reads
    [applicant["id"]], which no such call changes ([run_calls_ok]). *)
Definition _mock_decision_engine (sleep : M unit) (now : string)
    (applicant : loc) : M dict :=
  sleep;;
  v ← getitem applicant "id";
  m ← lift (py_mod v 2);
  let risk := if py_eq m (VInt 0) then "Low" else "Medium" in
  mret (<["status" := VStr "Decision Ready"]> (<["risk" := VStr risk]>
       (<["note" := VStr ("Processed at " +:+ now)]> ∅))).

(** The coroutine [task()] of [enqueue_decision_agent]. *)
Definition task (applicant_id : Z) (sleep : M unit) (now : string)
    : M unit :=
  applicant ← get_applicant applicant_id;
  falsy ← py_not applicant;
  match applicant with
  | Some a =>
      if falsy : bool then mret () else
      res ← _mock_decision_engine sleep now a;
      st ← lookup_item res "status";
      rk ← lookup_item res "risk";
      update_applicant applicant_id
        (<["status" := st]> (<["risk" := rk]> ∅));;
      mret ()
  | None => mret ()
  end.
End decision.

(** [background_tasks.add_task(asyncio.run, task())]: the scheduled
    coroutine is determined by the id it closes over. *)
Definition enqueue_decision_agent (background_tasks : list Z)
    (applicant_id : Z) : list Z :=
  background_tasks ++ [applicant_id].

End services.

(** ** backend/api.py *)

Module api.

Record ApplicantCreate := {
  name : string;
  unit_ : option string
}.

Record ApplicantUpdate := {
  status : option string;
  risk : option string
}.

Definition opt_str (x : option string) : value :=
  match x with
  | Some s => VStr s
  | None => VNone
  end.

(** [payload.dict()] *)
Definition ApplicantUpdate_dict (payload : ApplicantUpdate) : dict :=
  <["status" := opt_str (status payload)]>
    (<["risk" := opt_str (risk payload)]> ∅).

(** [if not x: raise HTTPException(status_code=404, ...)], else [x]. *)
Definition or_404 (x : option loc) : M loc :=
  falsy ← py_not x;
  match x with
  | Some a =>
      if falsy : bool then raise (HTTPException 404 "Applicant not found")
      else mret a
  | None => raise (HTTPException 404 "Applicant not found")
  end.

Definition list_applicants : M (list loc) := services.list_applicants.

Definition get_applicant (app_id : Z) : M loc :=
  app ← services.get_applicant app_id; or_404 app.

Definition create_applicant (payload : ApplicantCreate) (today : string)
    : M loc :=
  services.create_applicant (name payload) (default "" (unit_ payload)) today.

Definition patch_applicant (app_id : Z) (payload : ApplicantUpdate)
    : M loc :=
  updated ← services.update_applicant app_id (ApplicantUpdate_dict payload);
  or_404 updated.

Definition delete_applicant (app_id : Z) : M unit :=
  ok ← services.delete_applicant app_id;
  if ok : bool then mret ()
  else raise (HTTPException 404 "Applicant not found").

(** Returns the response body and the request's background tasks. *)
Definition run_decision (app_id : Z) (background_tasks : list Z)
    : M (dict * list Z) :=
  app ← services.get_applicant app_id;
  or_404 app;;
  mret (<["status" := VStr "queued"]> (<["applicant_id" := VInt app_id]> ∅),
        services.enqueue_decision_agent background_tasks app_id).

End api.

(** ** The process *)

(** The five seed records of [services.DEFAULTS]. *)
Definition seed_records : list dict := [
  applicant_dict (VInt 1001) "Anya Sharma" "402B" "2025-11-19"
    "Decision Ready" "Low" "110%" "0%";
  applicant_dict (VInt 1002) "Ben Carter" "105A" "2025-11-18"
    "Verification Agent" "Pending" "Pending" "N/A";
  applicant_dict (VInt 1003) "Chloe Davis" "512C" "2025-11-17"
    "Decision Ready" "Medium" "85%" "0%";
  applicant_dict (VInt 1004) "David Lee" "201B" "2025-11-15"
    "Document Agent" "Low" "125%" "0%";
  applicant_dict (VInt 1005) "Eva Rodriguez" "308D" "2025-11-14"
    "Denied" "High" "60%" "N/A"
].

(** The state right after [import backend.services]; the data file may or may
    not exist. *)
Definition startup (file : option (list dict)) : state :=
  State seed_records [0; 1; 2; 3; 4] file.

(** A call into the store made by some other request or task.  Handlers and
    tasks reach [update_applicant] only with a [status]/[risk] payload. *)
Inductive call :=
  | CallList
  | CallGet (app_id : Z)
  | CallCreate (name unit_ today : string)
  | CallUpdate (app_id : Z) (payload : api.ApplicantUpdate)
  | CallDelete (app_id : Z).

Definition run_call (c : call) (s : state) : state :=
  match c with
  | CallList => (services.list_applicants s).2
  | CallGet app_id => (services.get_applicant app_id s).2
  | CallCreate name unit_ today =>
      (services.create_applicant name unit_ today s).2
  | CallUpdate app_id payload =>
      (services.update_applicant app_id (api.ApplicantUpdate_dict payload) s).2
  | CallDelete app_id => (services.delete_applicant app_id s).2
  end.

(** Calls of other requests, in the order [_lock] serialises them; their
    exceptions stay in their own request. *)
Definition others (cs : list call) : M unit := λ s,
  (inr (), foldl (λ s c, run_call c s) s cs).

(** ** Specification vocabulary *)

(** The collection of applicant records the store holds: the array in the data
    file or, while the file does not exist, the seed objects that the next
    read writes to it. *)
Definition collection (s : state) : list dict :=
  match DATA_FILE s with
  | Some ds => ds
  | None => (λ a, heap s !!! a) <$> DEFAULTS s
  end.

Definition id_of (d : dict) : option Z :=
  match d !! "id" with
  | Some (VInt n) => Some n
  | _ => None
  end.

(** The ids of a collection, in order. *)
Definition ids (ds : list dict) : list Z := omap id_of ds.

(** Every record carries an integer [id] (the data model of the store). *)
Definition records_ok (ds : list dict) : Prop :=
  Forall (λ d, is_Some (id_of d)) ds.

(** [DEFAULTS] holds distinct, live references. *)
Definition refs_ok (s : state) : Prop :=
  Forall (λ a, a < length (heap s)) (DEFAULTS s) ∧ NoDup (DEFAULTS s).

Definition store_ok (s : state) : Prop :=
  refs_ok s ∧ records_ok (collection s).

#[global] Instance records_ok_dec ds : Decision (records_ok ds).
Proof. unfold records_ok. apply _. Defined.
#[global] Instance refs_ok_dec s : Decision (refs_ok s).
Proof. unfold refs_ok. apply _. Defined.
#[global] Instance store_ok_dec s : Decision (store_ok s).
Proof. unfold store_ok. apply _. Defined.

(** The references [data] denote the records [ds] in heap [h]. *)
Definition points_to (h : list dict) (data : list loc) (ds : list dict) : Prop :=
  Forall2 (λ a d, h !! a = Some d) data ds.

(** What a dict looks like after the update loop: the supplied non-null
    values, and the old value everywhere else. *)
Definition merged (d updates d' : dict) : Prop :=
  ∀ k, d' !! k = match updates !! k with
                 | Some v => if bool_decide (v = VNone) then d !! k else Some v
                 | None => d !! k
                 end.

(** The update loop on the value of the object. *)
Definition apply_items (d : dict) (items : list (string * value)) : dict :=
  foldl (λ acc kv, if bool_decide (kv.2 = VNone) then acc
                   else <[kv.1 := kv.2]> acc) d items.

(** [max(ids) + 1], and [1000 + 1] for no ids. *)
Definition next_id (l : list Z) : Z :=
  match l with
  | [] => 1001
  | x :: r => foldl Z.max x r + 1
  end.

(** Two collections agree record by record on every field other than
    [status] and [risk]. *)
Definition same_but_status_risk (ds ds' : list dict) : Prop :=
  Forall2 (λ d d' : dict, ∀ k, k ≠ "status" → k ≠ "risk" → d' !! k = d !! k)
          ds ds'.

(** The state after [_read] returned [data] from state [s]. *)
Definition read_post (s : state) (data : list loc) (s1 : state) : Prop :=
  DEFAULTS s1 = DEFAULTS s ∧
  DATA_FILE s1 = Some (collection s) ∧
  points_to (heap s1) data (collection s) ∧
  NoDup data ∧
  (DATA_FILE s = None → data = DEFAULTS s ∧ heap s1 = heap s) ∧
  (∀ ds, DATA_FILE s = Some ds →
     data = seq (length (heap s)) (length ds) ∧ heap s1 = heap s ++ ds).

(** An update payload that carries no other field than [status] and
    [risk]. *)
Definition only_status_risk (updates : dict) : Prop :=
  ∀ k, k ≠ "status" → k ≠ "risk" → updates !! k = None.

(** Every object of [s] is still there in [s'], with the same [id]. *)
Definition heap_ids_stable (s s' : state) : Prop :=
  ∀ a d, heap s !! a = Some d →
         ∃ d', heap s' !! a = Some d' ∧ d' !! "id" = d !! "id".

(** What the decision task writes back for applicant [app_id]. *)
Definition decision (app_id : Z) : dict :=
  <["status" := VStr "Decision Ready"]>
    (<["risk" := VStr (if Z.even app_id then "Low" else "Medium")]> ∅).

(** The result of a call whose return value is dropped. *)
Definition void {A} (r : (exn + A) * state) : (exn + ()) * state :=
  (match r.1 with inr _ => inr () | inl e => inl e end, r.2).

(** The 404 response of the handlers. *)
Definition not_found : exn := HTTPException 404 "Applicant not found".

(** The acknowledgment of [run_decision]. *)
Definition queued (app_id : Z) : dict :=
  <["status" := VStr "queued"]> (<["applicant_id" := VInt app_id]> ∅).

(** Runs of the process: calls into the store, and the data file being
    removed from outside. *)
Inductive event :=
  | Call (c : call)
  | FileRemoved.

Definition run_event (e : event) (s : state) : state :=
  match e with
  | Call c => run_call c s
  | FileRemoved => set_file None s
  end.

(** No call of the run [es] from [s] found the data file absent (every call
    starts with exactly one [_read]). *)
Fixpoint never_seeded (es : list event) (s : state) : Prop :=
  match es with
  | [] => True
  | e :: es' =>
      match e with
      | Call _ => is_Some (DATA_FILE s)
      | FileRemoved => True
      end ∧ never_seeded es' (run_event e s)
  end.

(** [DEFAULTS] still holds the five seed objects as they were at startup. *)
Definition seeds_intact (s : state) : Prop :=
  DEFAULTS s = [0; 1; 2; 3; 4] ∧ take 5 (heap s) = seed_records.

(** ** The response model of backend/api.py *)

Definition is_int (v : option value) : bool :=
  match v with
  | Some (VInt _) => true
  | _ => false
  end.

Definition is_str (v : option value) : bool :=
  match v with
  | Some (VStr _) => true
  | _ => false
  end.

(** The fields of [ApplicantResponse] with their declared types: [id: int]
    and seven [str] fields. *)
Definition has_response_fields (d : dict) : Prop :=
  is_int (d !! "id") ∧ is_str (d !! "name") ∧ is_str (d !! "unit") ∧
  is_str (d !! "date") ∧ is_str (d !! "status") ∧ is_str (d !! "risk") ∧
  is_str (d !! "income_match") ∧ is_str (d !! "error_rate").

#[global] Instance has_response_fields_dec d : Decision (has_response_fields d).
Proof. unfold has_response_fields. apply _. Defined.

(** The seed objects as [DEFAULTS] holds them now. *)
Definition seed_objects (s : state) : list dict :=
  (λ a, heap s !!! a) <$> DEFAULTS s.

(** ** backend/main.py: the routes of the application *)

Module main.

Inductive method := GET | POST | PATCH | DELETE.

#[global] Instance method_eq_dec : EqDecision method.
Proof. solve_decision. Defined.

Inductive endpoint :=
  | docs
  | read_root
  | list_applicants
  | get_applicant
  | create_applicant
  | patch_applicant
  | delete_applicant
  | run_decision.

(** A path is the list of its segments: ["/api/applicants"] is
    [["api"; "applicants"]], a trailing slash is an empty last segment, and
    ["/"] is [[""]].  A route pattern is a list of literal segments and
    [{parameters}]. *)
Inductive segment :=
  | Lit (s : string)
  | Param (name : string).

(** The decorators of [backend/api.py], relative to the router. *)
Definition router_routes : list (method * list segment * endpoint) := [
  (GET, [Lit "applicants"], list_applicants);
  (GET, [Lit "applicants"; Param "app_id"], get_applicant);
  (POST, [Lit "applicants"], create_applicant);
  (PATCH, [Lit "applicants"; Param "app_id"], patch_applicant);
  (DELETE, [Lit "applicants"; Param "app_id"], delete_applicant);
  (POST, [Lit "applicants"; Param "app_id"; Lit "run-decision"], run_decision)
].

(** [FastAPI(...)] with its default documentation pages, then
    [APIRouter(prefix="/api")] through [app.include_router(api_router)], then
    [@app.get("/")]. *)
Definition routes : list (method * list segment * endpoint) :=
  [(GET, [Lit "openapi.json"], docs);
   (GET, [Lit "docs"], docs);
   (GET, [Lit "docs"; Lit "oauth2-redirect"], docs);
   (GET, [Lit "redoc"], docs)]
  ++ ((λ r, (r.1.1, Lit "api" :: r.1.2, r.2)) <$> router_routes)
  ++ [(GET, [Lit ""], read_root)].

(** A literal matches itself, a parameter any non-empty segment. *)
Definition match_segment (p : segment) (x : string) : bool :=
  match p with
  | Lit s => bool_decide (s = x)
  | Param _ => negb (bool_decide (x = ""))
  end.

Fixpoint match_path (pattern : list segment) (path : list string) : bool :=
  match pattern, path with
  | [], [] => true
  | p :: pattern', x :: path' => match_segment p x && match_path pattern' path'
  | _, _ => false
  end.

Inductive resolution :=
  | Found (e : endpoint)
  | MethodNotAllowed
  | Redirect (path : list string)
  | NotFound.

(** The first route that matches path and method. *)
Definition full_match (m : method) (path : list string) : option endpoint :=
  (λ r, r.2) <$>
  head (filter (λ r, bool_decide (r.1.1 = m) && match_path r.1.2 path) routes).

Definition path_match (path : list string) : bool :=
  existsb (λ r, match_path r.1.2 path) routes.

(** The path with its trailing slash removed or added. *)
Definition toggle_slash (path : list string) : list string :=
  match reverse path with
  | "" :: rest => reverse rest
  | _ => path ++ [""]
  end.

(** Routing: a full match, else 405 when only the path matches, else a
    redirect when the path matches with the trailing slash toggled, else
    404. *)
Definition resolve (m : method) (path : list string) : resolution :=
  match full_match m path with
  | Some e => Found e
  | None =>
      if path_match path then MethodNotAllowed
      else if path_match (toggle_slash path) then Redirect (toggle_slash path)
      else NotFound
  end.

End main.

(** ** dashboard.py *)

Module dashboard.

Section requests.
(** [str(app_id)] inside the f-strings. *)
Variable py_str : Z → string.

(** The request each wrapper sends: [requests.get] for [fetch_applicants],
    [requests.post] through [send_action_to_api] for the others. *)
Definition fetch_applicants_request : main.method * list string :=
  (main.GET, ["applicants"; ""]).
Definition add_applicant_request : main.method * list string :=
  (main.POST, ["applicants"; "add"]).
Definition update_applicant_request (app_id : Z) : main.method * list string :=
  (main.POST, ["applicants"; "update"; py_str app_id]).
Definition delete_applicant_request (app_id : Z) : main.method * list string :=
  (main.POST, ["applicants"; "delete"; py_str app_id]).
Definition approve_applicant_request (app_id : Z) : main.method * list string :=
  (main.POST, ["applicants"; "approve"; py_str app_id]).
End requests.

(** What [requests.get] gives back. *)
Inductive http_result :=
  | ConnectionError
  | Response (status_code : Z) (json : list dict).

(** [fetch_applicants]: [raise_for_status] raises for a 4xx or 5xx status,
    and both [except] branches return [[]]. *)
Definition fetch_applicants (r : http_result) : list dict :=
  match r with
  | ConnectionError => []
  | Response status_code json =>
      if bool_decide (400 ≤ status_code < 600)%Z then [] else json
  end.

(** [app['status'] in statuses]; [app['status'] == x] is the case of one
    status. *)
Definition status_in (v : value) (statuses : list string) : bool :=
  existsb (λ x, py_eq v (VStr x)) statuses.

(** [sum(1 for app in applicants if app['status'] in statuses)] *)
Fixpoint count_status (statuses : list string) (applicants : list dict)
    : exn + nat :=
  match applicants with
  | [] => inr 0
  | app :: rest =>
      match app !! "status" with
      | None => inl KeyError
      | Some v =>
          match count_status statuses rest with
          | inr n => inr (if status_in v statuses then S n else n)
          | inl e => inl e
          end
      end
  end.

Definition total_applications (applicants : list dict) : nat :=
  length applicants.
Definition ready_for_review : list dict → exn + nat :=
  count_status ["Decision Ready"].
Definition denied : list dict → exn + nat :=
  count_status ["Denied"; "Denied/Overridden"].
Definition in_verification : list dict → exn + nat :=
  count_status ["Verification Agent"].
Definition lease_generated : list dict → exn + nat :=
  count_status ["Document Agent"].

(** [[app for app in applicants if app['status'] == 'Decision Ready']] *)
Fixpoint approval_candidates (applicants : list dict) : exn + list dict :=
  match applicants with
  | [] => inr []
  | app :: rest =>
      match app !! "status" with
      | None => inl KeyError
      | Some v =>
          match approval_candidates rest with
          | inr l => inr (if py_eq v (VStr "Decision Ready") then app :: l
                          else l)
          | inl e => inl e
          end
      end
  end.

(** [approval_candidates[0]] under [if approval_candidates:]; [None] when the
    gate is not shown. *)
Definition ready_applicant (applicants : list dict) : exn + option dict :=
  match approval_candidates applicants with
  | inr l => inr (head l)
  | inl e => inl e
  end.

Definition status_options : list string :=
  ["Submitted/Manual"; "Verification Agent"; "Decision Ready";
   "Document Agent"; "Approved/Leased"; "Denied"; "Denied/Overridden"].

Definition risk_options : list string := ["Pending"; "Low"; "Medium"; "High"].

(** [options.index(x)]; [None] stands for the [ValueError] of a value that
    is not in the list. *)
Fixpoint py_index (options : list string) (x : value) : option nat :=
  match options with
  | [] => None
  | o :: rest =>
      if py_eq (VStr o) x then Some 0 else S <$> py_index rest x
  end.

(** [status_options.index(current_app.get('status', "Submitted/Manual"))] *)
Definition current_status_index (current_app : dict) : option nat :=
  py_index status_options
    (default (VStr "Submitted/Manual") (current_app !! "status")).

(** [risk_options.index(current_app.get('risk', "Pending"))] *)
Definition current_risk_index (current_app : dict) : option nat :=
  py_index risk_options (default (VStr "Pending") (current_app !! "risk")).

End dashboard.

(** The update form can be drawn for this record. *)
Definition form_ok (d : dict) : Prop :=
  is_Some (dashboard.current_status_index d) ∧
  is_Some (dashboard.current_risk_index d).

#[global] Instance form_ok_dec d : Decision (form_ok d).
Proof. unfold form_ok. apply _. Defined.

(** An update payload whose values are strings or null. *)
Definition str_or_none (u : dict) : Prop :=
  ∀ k v, u !! k = Some v → v = VNone ∨ ∃ x, v = VStr x.

(** A payload whose supplied values are among the options of the dashboard's
    update form. *)
Definition listed (payload : api.ApplicantUpdate) : Prop :=
  (∀ x, api.status payload = Some x → x ∈ dashboard.status_options) ∧
  (∀ x, api.risk payload = Some x → x ∈ dashboard.risk_options).

Definition call_listed (c : call) : Prop :=
  match c with
  | CallUpdate _ payload => listed payload
  | _ => True
  end.

(** * Proofs *)

(** ** The monad and the primitives *)

Lemma bind_ok {A B} (c : M A) (f : A → M B) s a s' :
  c s = (inr a, s') → (c ≫= f) s = f a s'.
Proof. intros H. unfold mbind, M_bind. by rewrite H. Qed.

Lemma deref_ok a d s : heap s !! a = Some d → deref a s = (inr d, s).
Proof. intros H. unfold deref. by rewrite H. Qed.

Lemma getitem_ok a k d v s :
  heap s !! a = Some d → d !! k = Some v → getitem a k s = (inr v, s).
Proof.
  intros Ha Hk. unfold getitem.
  rewrite (bind_ok _ _ _ _ _ (deref_ok _ _ _ Ha)). by rewrite Hk.
Qed.

Lemma id_of_Some d n : id_of d = Some n ↔ d !! "id" = Some (VInt n).
Proof.
  unfold id_of. destruct (d !! "id") as [[]|]; split; intros; simplify_eq; done.
Qed.

Lemma getitem_id a d n s :
  heap s !! a = Some d → id_of d = Some n →
  getitem a "id" s = (inr (VInt n), s).
Proof. intros Ha Hn. apply id_of_Some in Hn. by eapply getitem_ok. Qed.

Lemma py_eq_int n m : py_eq (VInt n) (VInt m) = bool_decide (n = m).
Proof. unfold py_eq. apply bool_decide_ext. split; congruence. Qed.

Lemma json_dump_spec data ds s :
  points_to (heap s) data ds → json_dump data s = (inr ds, s).
Proof.
  induction 1 as [|a d data ds Ha _ IH]; [done|]. simpl.
  rewrite (bind_ok _ _ _ _ _ (deref_ok _ _ _ Ha)).
  by rewrite (bind_ok _ _ _ _ _ IH).
Qed.

Lemma json_load_spec ds s :
  json_load ds s =
    (inr (seq (length (heap s)) (length ds)), set_heap (heap s ++ ds) s).
Proof.
  revert s. induction ds as [|d ds IH]; intros s; simpl.
  - unfold mret, M_ret, set_heap. rewrite app_nil_r. by destruct s.
  - unfold alloc. erewrite bind_ok by reflexivity.
    rewrite (bind_ok _ _ _ _ _ (IH _)). unfold mret, M_ret, set_heap. simpl.
    rewrite length_app, <- app_assoc. simpl.
    by rewrite Nat.add_1_r.
Qed.

Lemma points_to_fresh h ds : points_to (h ++ ds) (seq (length h) (length ds)) ds.
Proof.
  apply Forall2_same_length_lookup_2; [by rewrite length_seq|].
  intros i a d Ha Hd. apply lookup_seq in Ha as [-> _].
  by rewrite lookup_app_r, Nat.add_comm, Nat.add_sub by lia.
Qed.

Lemma points_to_defaults s :
  refs_ok s → points_to (heap s) (DEFAULTS s) ((λ a, heap s !!! a) <$> DEFAULTS s).
Proof.
  intros [Hlive _]. apply Forall2_fmap_r, Forall_Forall2_diag.
  eapply Forall_impl; [exact Hlive|]. intros a Ha. simpl.
  by apply list_lookup_lookup_total_lt.
Qed.

Lemma points_to_app h h' data ds :
  points_to h data ds → points_to (h ++ h') data ds.
Proof.
  intros H. eapply Forall2_impl; [exact H|]. intros a d Ha. simpl in *.
  by apply lookup_app_l_Some.
Qed.

Lemma points_to_length h data ds : points_to h data ds → length data = length ds.
Proof. apply Forall2_length. Qed.

Lemma read_spec s :
  refs_ok s → ∃ data s1, services._read s = (inr data, s1) ∧ read_post s data s1.
Proof.
  intros Hrefs. unfold services._read, read_post, collection.
  destruct (DATA_FILE s) as [ds|] eqn:Hf.
  - eexists _, _. split.
    { erewrite bind_ok by (unfold read_file; by rewrite Hf).
      apply json_load_spec. }
    simpl. split_and!; try done.
    + apply points_to_fresh.
    + apply NoDup_seq.
    + by intros ? [= <-].
  - eexists _, _. split.
    { erewrite bind_ok by (unfold read_file; by rewrite Hf).
      cbv beta iota. erewrite bind_ok by reflexivity.
      erewrite bind_ok by (apply json_dump_spec, points_to_defaults, Hrefs).
      erewrite bind_ok by reflexivity. reflexivity. }
    simpl. split_and!; try done.
    + by apply points_to_defaults.
    + apply Hrefs.
Qed.

(** ** Ids of a collection *)

Lemma ids_cons_match d ds :
  ids (d :: ds) = match id_of d with
                  | Some n => n :: ids ds
                  | None => ids ds
                  end.
Proof. done. Qed.

Lemma ids_cons d ds n : id_of d = Some n → ids (d :: ds) = n :: ids ds.
Proof. intros H. unfold ids. simpl. by rewrite H. Qed.

Lemma ids_app ds1 ds2 : ids (ds1 ++ ds2) = ids ds1 ++ ids ds2.
Proof. apply omap_app. Qed.

Lemma elem_of_ids n ds : n ∈ ids ds ↔ ∃ d, d ∈ ds ∧ id_of d = Some n.
Proof. apply list_elem_of_omap. Qed.

Lemma records_ok_app ds1 ds2 :
  records_ok (ds1 ++ ds2) ↔ records_ok ds1 ∧ records_ok ds2.
Proof. apply Forall_app. Qed.

(** ** The loops of the service functions *)

Lemma get_loop_spec app_id data ds s :
  points_to (heap s) data ds → records_ok ds →
  ∃ r, services.get_loop app_id data s = (inr r, s) ∧
       match r with
       | None => app_id ∉ ids ds
       | Some a => ∃ d, a ∈ data ∧ heap s !! a = Some d ∧
                        id_of d = Some app_id ∧ d ∈ ds
       end.
Proof.
  induction 1 as [|a d data ds Ha _ IH]; intros Hok.
  - exists None. split; [done|]. apply not_elem_of_nil.
  - apply Forall_cons in Hok as [[n Hn] Hok]. simpl.
    rewrite (bind_ok _ _ _ _ _ (getitem_id _ _ _ _ Ha Hn)), py_eq_int.
    case_bool_decide as Heq.
    + subst n. exists (Some a). split; [done|]. exists d.
      split_and!; [apply list_elem_of_here|done|done|apply list_elem_of_here].
    + destruct (IH Hok) as (r & Hr & Hpost). exists r. split; [done|].
      destruct r as [a'|].
      * destruct Hpost as (d' & ? & ? & ? & ?). exists d'.
        split_and!; [by apply list_elem_of_further|done|done|
                     by apply list_elem_of_further].
      * rewrite Hn, not_elem_of_cons. split; [congruence|done].
Qed.

Lemma max_loop_spec data ds m s :
  points_to (heap s) data ds → records_ok ds →
  services.max_loop (VInt m) data s = (inr (VInt (foldl Z.max m (ids ds))), s).
Proof.
  intros Hp. revert m. induction Hp as [|a d data ds Ha _ IH]; intros m Hok.
  - done.
  - apply Forall_cons in Hok as [[n Hn] Hok]. cbn [services.max_loop].
    rewrite (bind_ok _ _ _ _ _ (getitem_id _ _ _ _ Ha Hn)).
    erewrite bind_ok by reflexivity.
    rewrite (ids_cons _ _ _ Hn). cbn [foldl].
    replace (if bool_decide (m < n)%Z then VInt n else VInt m)
      with (VInt (Z.max m n)) by (case_bool_decide; f_equal; lia).
    by apply IH.
Qed.

Lemma max_ids_spec data ds s :
  points_to (heap s) data ds → records_ok ds →
  services.max_ids data (VInt 1000) s = (inr (VInt (next_id (ids ds) - 1)), s).
Proof.
  destruct 1 as [|a d data ds Ha Hp]; intros Hok; [done|].
  apply Forall_cons in Hok as [[n Hn] Hok]. cbn [services.max_ids].
  rewrite (bind_ok _ _ _ _ _ (getitem_id _ _ _ _ Ha Hn)).
  rewrite (max_loop_spec _ _ _ _ Hp Hok), (ids_cons _ _ _ Hn). cbn [next_id].
  do 3 f_equal. lia.
Qed.

Lemma foldl_max_ge (l : list Z) m : (m ≤ foldl Z.max m l)%Z.
Proof.
  revert m. induction l as [|x l IH]; intros m; simpl; [lia|].
  specialize (IH (Z.max m x)). lia.
Qed.

Lemma foldl_max_bound (l : list Z) m : Forall (λ x, x ≤ foldl Z.max m l)%Z l.
Proof.
  revert m. induction l as [|x l IH]; intros m; simpl; constructor.
  - pose proof (foldl_max_ge l (Z.max m x)). lia.
  - apply IH.
Qed.

Lemma foldl_max_elem (l : list Z) m : foldl Z.max m l ∈ m :: l.
Proof.
  revert m. induction l as [|x l IH]; intros m; simpl.
  - apply list_elem_of_here.
  - specialize (IH (Z.max m x)). apply elem_of_cons in IH as [IH|IH].
    + rewrite IH. destruct (Z.max_spec m x) as [[_ ->]|[_ ->]].
      * apply list_elem_of_further, list_elem_of_here.
      * apply list_elem_of_here.
    + by do 2 apply list_elem_of_further.
Qed.

(** [next_id] is above every id, and right above one of them. *)
Lemma next_id_above l : Forall (λ x, x < next_id l)%Z l.
Proof.
  destruct l as [|x l]; [constructor|]. simpl. constructor.
  - pose proof (foldl_max_ge l x). lia.
  - eapply Forall_impl; [apply (foldl_max_bound l x)|]. simpl. intros; lia.
Qed.

Lemma next_id_tight l : l ≠ [] → (next_id l - 1)%Z ∈ l.
Proof.
  destruct l as [|x l]; [done|]. intros _. simpl.
  replace (foldl Z.max x l + 1 - 1)%Z with (foldl Z.max x l) by lia.
  apply foldl_max_elem.
Qed.

Lemma set_heap_id s : set_heap (heap s) s = s.
Proof. by destruct s. Qed.

Lemma setitems_spec a d items s :
  heap s !! a = Some d →
  services.setitems a items s =
    (inr (), set_heap (<[a := apply_items d items]> (heap s)) s).
Proof.
  revert d s. induction items as [|[k v] items IH]; intros d s Ha.
  - cbn. by rewrite list_insert_id, set_heap_id.
  - cbn [services.setitems apply_items foldl fst snd].
    case_bool_decide as Hv.
    + erewrite bind_ok by reflexivity. by apply IH.
    + unfold setitem. erewrite bind_ok; last first.
      { rewrite (bind_ok _ _ _ _ _ (deref_ok _ _ _ Ha)). reflexivity. }
      erewrite IH; last first.
      { cbn. apply list_lookup_insert_eq. by eapply lookup_lt_Some. }
      cbn. by rewrite list_insert_insert_eq.
Qed.

Lemma apply_items_lookup d items k :
  NoDup items.*1 →
  apply_items d items !! k =
    match (list_to_map items : dict) !! k with
    | Some v => if bool_decide (v = VNone) then d !! k else Some v
    | None => d !! k
    end.
Proof.
  revert d. induction items as [|[k0 v0] items IH]; intros d Hnd.
  - done.
  - apply NoDup_cons in Hnd as [Hk0 Hnd].
    cbn [apply_items foldl fst snd list_to_map foldr].
    fold (apply_items (if bool_decide (v0 = VNone) then d else <[k0:=v0]> d) items).
    rewrite (IH _ Hnd). destruct (decide (k = k0)) as [->|Hne].
    + rewrite lookup_insert_eq.
      rewrite (not_elem_of_list_to_map_1 (M := gmap string)) by done.
      case_bool_decide; [done|]. by rewrite lookup_insert_eq.
    + rewrite lookup_insert_ne by done.
      assert ((if bool_decide (v0 = VNone) then d else <[k0:=v0]> d) !! k
              = d !! k) as ->; [|done].
      case_bool_decide; [done|]. by rewrite lookup_insert_ne.
Qed.

(** The loop over [updates.items()] computes the merge. *)
Lemma apply_items_merged d (updates : dict) :
  merged d updates (apply_items d (map_to_list updates)).
Proof.
  intros k. rewrite apply_items_lookup by apply NoDup_fst_map_to_list.
  by rewrite list_to_map_to_list.
Qed.

Lemma points_to_insert h data ds i a d' :
  points_to h data ds → NoDup data → data !! i = Some a →
  points_to (<[a := d']> h) data (<[i := d']> ds).
Proof.
  intros Hp Hnd Hi. apply Forall2_same_length_lookup_2.
  { rewrite length_insert. by eapply Forall2_length. }
  intros j b e Hb He.
  destruct (Forall2_lookup_l _ _ _ _ _ Hp Hb) as (e0 & He0 & Hbe0).
  destruct (decide (j = i)) as [->|Hne].
  - simplify_eq. rewrite list_lookup_insert_eq in He by by eapply lookup_lt_Some.
    simplify_eq. apply list_lookup_insert_eq. by eapply lookup_lt_Some.
  - rewrite list_lookup_insert_ne in He by done. simplify_eq.
    rewrite list_lookup_insert_ne; [done|].
    intros ->. apply Hne. by eapply NoDup_lookup.
Qed.

Lemma update_loop_spec app_id updates data ds rest drest pre dpre s :
  data = pre ++ rest → ds = dpre ++ drest →
  points_to (heap s) pre dpre → points_to (heap s) rest drest →
  NoDup data → records_ok drest → app_id ∉ ids dpre →
  ((app_id ∉ ids ds) ∧
   services.update_loop app_id updates data rest s = (inr None, s)) ∨
  (∃ i a d, data !! i = Some a ∧ ds !! i = Some d ∧ id_of d = Some app_id ∧
            (app_id ∉ ids (take i ds)) ∧
            services.update_loop app_id updates data rest s =
              (inr (Some a),
               State (<[a := apply_items d (map_to_list updates)]> (heap s))
                     (DEFAULTS s)
                     (Some (<[i := apply_items d (map_to_list updates)]> ds)))).
Proof.
  intros Hdata Hds Hpre Hrest. revert pre dpre Hdata Hds Hpre.
  induction Hrest as [|a d rest drest Ha Hrest IH];
    intros pre dpre -> -> Hpre Hnd Hok Hno.
  - left. rewrite !app_nil_r. done.
  - apply Forall_cons in Hok as [[n Hn] Hok].
    cbn [services.update_loop].
    rewrite (bind_ok _ _ _ _ _ (getitem_id _ _ _ _ Ha Hn)), py_eq_int.
    pose proof (Forall2_length _ _ _ Hpre) as Hlen.
    case_bool_decide as Heq.
    + subst n. right. exists (length pre), a, d.
      assert ((pre ++ a :: rest) !! length pre = Some a) as Hia
        by by rewrite list_lookup_middle.
      split_and!.
      * done.
      * by rewrite list_lookup_middle.
      * done.
      * by rewrite Hlen, take_app_length.
      * rewrite (bind_ok _ _ _ _ _ (setitems_spec _ _ _ _ Ha)).
        unfold services._write. erewrite bind_ok; last first.
        { erewrite bind_ok; [reflexivity|]. apply json_dump_spec. cbn.
          apply points_to_insert; [|done|done].
          apply Forall2_app; [done|]. by constructor. }
        done.
    + destruct (IH (pre ++ [a]) (dpre ++ [d])) as [[Hn' Hr]|Hr].
      * by rewrite <- app_assoc.
      * by rewrite <- app_assoc.
      * apply Forall2_app; [done|]. by repeat constructor.
      * done.
      * done.
      * rewrite ids_app, (ids_cons _ _ _ Hn). cbn.
        rewrite elem_of_app, list_elem_of_singleton. intros [?|?]; congruence.
      * by left.
      * by right.
Qed.

Lemma delete_filter_spec app_id data ds s :
  points_to (heap s) data ds → records_ok ds →
  ∃ new, services.delete_filter app_id data s = (inr new, s) ∧
         points_to (heap s) new (filter (λ d, id_of d ≠ Some app_id) ds) ∧
         new `sublist_of` data.
Proof.
  induction 1 as [|a d data ds Ha _ IH]; intros Hok.
  - exists []. split_and!; [done|constructor|done].
  - apply Forall_cons in Hok as [[n Hn] Hok].
    destruct (IH Hok) as (new & Hrun & Hnew & Hsub).
    cbn [services.delete_filter].
    rewrite (bind_ok _ _ _ _ _ (getitem_id _ _ _ _ Ha Hn)).
    rewrite (bind_ok _ _ _ _ _ Hrun), py_eq_int.
    case_bool_decide as Heq.
    + subst n. exists new. split_and!; [done| |by apply sublist_cons].
      rewrite filter_cons_False; [done|]. by intros [].
    + exists (a :: new). split_and!; [done| |by apply sublist_skip].
      rewrite filter_cons_True by congruence. by constructor.
Qed.

Lemma filter_ids_length app_id ds :
  records_ok ds →
  length (filter (λ d, id_of d ≠ Some app_id) ds) = length ds ↔
  app_id ∉ ids ds.
Proof.
  induction 1 as [|d ds [n Hn] _ IH].
  - split; [intros _; apply not_elem_of_nil|done].
  - rewrite (ids_cons _ _ _ Hn), not_elem_of_cons.
    destruct (decide (n = app_id)) as [->|Hne].
    + rewrite filter_cons_False by (by intros []).
      pose proof (length_filter (λ d, id_of d ≠ Some app_id) ds).
      simpl. split; [lia|by intros [[] _]].
    + rewrite filter_cons_True by congruence. simpl.
      rewrite <- IH. split; [intros [= ->]; split; [congruence|done]|
                             intros [_ ->]; done].
Qed.

Lemma filter_ids app_id ds :
  ids (filter (λ d, id_of d ≠ Some app_id) ds) = filter (λ n, n ≠ app_id) (ids ds).
Proof.
  induction ds as [|d ds IH]; [done|].
  destruct (id_of d) as [n|] eqn:Hn.
  - rewrite (ids_cons _ _ _ Hn). destruct (decide (n = app_id)) as [->|Hne].
    + rewrite !filter_cons_False by (by intros []). done.
    + rewrite !filter_cons_True by congruence.
      by rewrite (ids_cons _ _ _ Hn), IH.
  - rewrite filter_cons_True by congruence.
    unfold ids in *. cbn. by rewrite Hn.
Qed.

(** ** The service functions on a well-formed store *)

Lemma read_post_collection s data s1 :
  read_post s data s1 → collection s1 = collection s.
Proof. intros (_ & Hf & _). unfold collection at 1. by rewrite Hf. Qed.

Lemma read_post_heap s data s1 :
  read_post s data s1 → ∃ h', heap s1 = heap s ++ h'.
Proof.
  intros (_ & _ & _ & _ & Hnone & Hsome).
  destruct (DATA_FILE s) as [ds|] eqn:Hf.
  - exists ds. by apply Hsome.
  - exists []. rewrite app_nil_r. by apply Hnone.
Qed.

Lemma read_post_det s data s1 data' s1' :
  read_post s data s1 → read_post s data' s1' → data = data' ∧ s1 = s1'.
Proof.
  intros (HD & Hf & _ & _ & Hnone & Hsome) (HD' & Hf' & _ & _ & Hnone' & Hsome').
  assert (data = data' ∧ heap s1 = heap s1') as [-> Hh].
  { destruct (DATA_FILE s) as [ds|] eqn:Hfile.
    - destruct (Hsome _ eq_refl) as [-> ->].
      by destruct (Hsome' _ eq_refl) as [-> ->].
    - destruct (Hnone eq_refl) as [-> ->].
      by destruct (Hnone' eq_refl) as [-> ->]. }
  split; [done|]. destruct s1, s1'. cbn in *. congruence.
Qed.

Lemma refs_ok_grow s s' :
  DEFAULTS s' = DEFAULTS s → length (heap s) ≤ length (heap s') →
  refs_ok s → refs_ok s'.
Proof.
  intros HD Hlen [Hlive Hnd]. unfold refs_ok. rewrite HD. split; [|done].
  eapply Forall_impl; [exact Hlive|]. simpl. intros; lia.
Qed.

Lemma read_post_ok s data s1 :
  read_post s data s1 → store_ok s → store_ok s1.
Proof.
  intros Hpost [Hrefs Hrec]. split.
  - destruct (read_post_heap _ _ _ Hpost) as [h' Hh].
    eapply refs_ok_grow; [apply Hpost| |done]. rewrite Hh, length_app. lia.
  - by rewrite (read_post_collection _ _ _ Hpost).
Qed.

Lemma list_applicants_spec s :
  store_ok s →
  ∃ data s1, services.list_applicants s = (inr data, s1) ∧ read_post s data s1.
Proof. intros [Hrefs _]. by apply read_spec. Qed.

Lemma get_applicant_spec app_id s :
  store_ok s →
  ∃ data s1 r,
    read_post s data s1 ∧
    services.get_applicant app_id s = (inr r, s1) ∧
    match r with
    | None => app_id ∉ ids (collection s)
    | Some a => ∃ d, a ∈ data ∧ heap s1 !! a = Some d ∧
                     id_of d = Some app_id ∧ d ∈ collection s
    end.
Proof.
  intros [Hrefs Hrec]. destruct (read_spec s Hrefs) as (data & s1 & Hread & Hpost).
  destruct (get_loop_spec app_id data (collection s) s1) as (r & Hr & Hres);
    [apply Hpost|done|].
  exists data, s1, r. split_and!; [done| |done].
  unfold services.get_applicant. by rewrite (bind_ok _ _ _ _ _ Hread).
Qed.

Lemma create_applicant_spec name unit_ today s :
  store_ok s →
  ∃ data s1,
    read_post s data s1 ∧
    let new := applicant_dict (VInt (next_id (ids (collection s))))
                 name unit_ today "Submitted/Manual" "Pending" "N/A" "N/A" in
    services.create_applicant name unit_ today s =
      (inr (length (heap s1)),
       State (heap s1 ++ [new]) (DEFAULTS s) (Some (collection s ++ [new]))).
Proof.
  intros [Hrefs Hrec]. destruct (read_spec s Hrefs) as (data & s1 & Hread & Hpost).
  exists data, s1. split; [done|]. intros new.
  destruct Hpost as (HD & Hf & Hp & _).
  unfold services.create_applicant.
  rewrite (bind_ok _ _ _ _ _ Hread).
  rewrite (bind_ok _ _ _ _ _ (max_ids_spec _ _ _ Hp Hrec)).
  erewrite bind_ok by reflexivity.
  replace (next_id (ids (collection s)) - 1 + 1)%Z
    with (next_id (ids (collection s))) by lia.
  fold new. erewrite bind_ok by reflexivity.
  unfold services._write. erewrite bind_ok; last first.
  { erewrite bind_ok; [reflexivity|]. apply json_dump_spec. cbn.
    apply Forall2_app.
    - by apply points_to_app.
    - constructor; [|constructor]. by rewrite list_lookup_middle. }
  unfold mret, M_ret, set_file, set_heap. cbn. by rewrite HD.
Qed.

Lemma update_applicant_spec app_id updates s :
  store_ok s →
  ∃ data s1,
    read_post s data s1 ∧
    (((app_id ∉ ids (collection s)) ∧
      services.update_applicant app_id updates s = (inr None, s1)) ∨
     (∃ i a d, data !! i = Some a ∧ collection s !! i = Some d ∧
               id_of d = Some app_id ∧
               (app_id ∉ ids (take i (collection s))) ∧
               let d' := apply_items d (map_to_list updates) in
               services.update_applicant app_id updates s =
                 (inr (Some a),
                  State (<[a := d']> (heap s1)) (DEFAULTS s)
                        (Some (<[i := d']> (collection s)))))).
Proof.
  intros [Hrefs Hrec]. destruct (read_spec s Hrefs) as (data & s1 & Hread & Hpost).
  exists data, s1. split; [done|].
  destruct Hpost as (HD & Hf & Hp & Hnd & _).
  unfold services.update_applicant. rewrite (bind_ok _ _ _ _ _ Hread).
  assert (points_to (heap s1) [] []) as Hnil by constructor.
  destruct (update_loop_spec app_id updates data (collection s) data
              (collection s) [] [] s1 eq_refl eq_refl Hnil Hp Hnd Hrec
              (not_elem_of_nil _)) as [Hno|Hyes].
  - by left.
  - right. destruct Hyes as (i & a & d & ? & ? & ? & ? & Hrun).
    exists i, a, d. split_and!; try done. cbn. by rewrite Hrun, HD.
Qed.

Lemma delete_applicant_spec app_id s :
  store_ok s →
  ∃ data s1,
    read_post s data s1 ∧
    (((app_id ∉ ids (collection s)) ∧
      services.delete_applicant app_id s = (inr false, s1)) ∨
     (app_id ∈ ids (collection s) ∧
      services.delete_applicant app_id s =
        (inr true,
         set_file (Some (filter (λ d, id_of d ≠ Some app_id) (collection s)))
                  s1))).
Proof.
  intros [Hrefs Hrec]. destruct (read_spec s Hrefs) as (data & s1 & Hread & Hpost).
  exists data, s1. split; [done|].
  destruct Hpost as (HD & Hf & Hp & Hnd & _).
  destruct (delete_filter_spec app_id data (collection s) s1 Hp Hrec)
    as (new & Hrun & Hnew & _).
  unfold services.delete_applicant.
  rewrite (bind_ok _ _ _ _ _ Hread), (bind_ok _ _ _ _ _ Hrun).
  rewrite (points_to_length _ _ _ Hnew), (points_to_length _ _ _ Hp).
  case_bool_decide as Hlen.
  - left. split; [|done]. by apply filter_ids_length.
  - right. split.
    + destruct (decide (app_id ∈ ids (collection s))) as [|Hn]; [done|].
      by apply filter_ids_length in Hn.
    + unfold services._write. erewrite bind_ok; last first.
      { erewrite bind_ok; [reflexivity|]. by apply json_dump_spec. }
      done.
Qed.

(** ** Well-formedness and object identity are preserved *)

Lemma heap_ids_stable_refl s : heap_ids_stable s s.
Proof. intros a d Ha. by exists d. Qed.

Lemma heap_ids_stable_trans s1 s2 s3 :
  heap_ids_stable s1 s2 → heap_ids_stable s2 s3 → heap_ids_stable s1 s3.
Proof.
  intros H12 H23 a d Ha. destruct (H12 a d Ha) as (d2 & Ha2 & Hid2).
  destruct (H23 a d2 Ha2) as (d3 & Ha3 & Hid3). exists d3.
  split; [done|congruence].
Qed.

Lemma heap_ids_stable_app s s' h' :
  heap s' = heap s ++ h' → heap_ids_stable s s'.
Proof.
  intros Hh a d Ha. exists d. split; [|done].
  rewrite Hh. by apply lookup_app_l_Some.
Qed.

Lemma read_post_stable s data s1 : read_post s data s1 → heap_ids_stable s s1.
Proof.
  intros Hpost. destruct (read_post_heap _ _ _ Hpost) as [h' Hh].
  by eapply heap_ids_stable_app.
Qed.

Lemma merged_frame d updates d' k :
  merged d updates d' → updates !! k = None → d' !! k = d !! k.
Proof. intros Hm Hk. by rewrite (Hm k), Hk. Qed.

Lemma merged_id d updates d' :
  merged d updates d' → only_status_risk updates → id_of d' = id_of d.
Proof.
  intros Hm Hu. unfold id_of.
  by rewrite (merged_frame _ _ _ "id" Hm) by by apply Hu.
Qed.

Lemma ApplicantUpdate_dict_only payload :
  only_status_risk (api.ApplicantUpdate_dict payload).
Proof.
  intros k Hs Hr. unfold api.ApplicantUpdate_dict.
  by rewrite !lookup_insert_ne, lookup_empty.
Qed.

Lemma decision_only app_id : only_status_risk (decision app_id).
Proof.
  intros k Hs Hr. unfold decision. by rewrite !lookup_insert_ne, lookup_empty.
Qed.

Lemma ids_insert ds i d d' :
  ds !! i = Some d → id_of d' = id_of d → ids (<[i := d']> ds) = ids ds.
Proof.
  revert i. induction ds as [|d0 ds IH]; intros [|i] Hi Hid; try done.
  - cbn in Hi. simplify_eq.
    change (<[0:=d']> (d :: ds)) with (d' :: ds).
    by rewrite !ids_cons_match, Hid.
  - cbn in Hi. change (<[S i:=d']> (d0 :: ds)) with (d0 :: <[i:=d']> ds).
    by rewrite !ids_cons_match, (IH i Hi Hid).
Qed.

Lemma records_ok_insert ds i d d' :
  records_ok ds → ds !! i = Some d → id_of d' = id_of d →
  records_ok (<[i := d']> ds).
Proof.
  intros Hok Hi Hid. apply Forall_insert; [done|]. rewrite Hid.
  by eapply (Forall_lookup_1 _ _ _ _ Hok).
Qed.

Lemma same_but_status_risk_refl ds : same_but_status_risk ds ds.
Proof. by apply Forall_Forall2_diag, Forall_true. Qed.

Lemma same_but_status_risk_insert ds i d d' updates :
  ds !! i = Some d → merged d updates d' → only_status_risk updates →
  same_but_status_risk ds (<[i := d']> ds).
Proof.
  intros Hi Hm Hu. apply Forall2_same_length_lookup_2; [by rewrite length_insert|].
  intros j e e' He He' k Hs Hr. destruct (decide (j = i)) as [->|Hne].
  - rewrite list_lookup_insert_eq in He' by by eapply lookup_lt_Some.
    simplify_eq. eapply merged_frame; [done|]. by apply Hu.
  - rewrite list_lookup_insert_ne in He' by done. by simplify_eq.
Qed.

(** The effect of [update_applicant] with a [status]/[risk] payload. *)
Lemma update_applicant_frame app_id updates s :
  store_ok s → only_status_risk updates →
  let s' := (services.update_applicant app_id updates s).2 in
  store_ok s' ∧ heap_ids_stable s s' ∧
  same_but_status_risk (collection s) (collection s') ∧
  ids (collection s') = ids (collection s).
Proof.
  intros Hok Hu.
  destruct (update_applicant_spec app_id updates s Hok)
    as (data & s1 & Hpost & [[Hno Hrun]|(i & a & d & Hia & Hid & Hn & _ & Hrun)]).
  - rewrite Hrun. cbn. rewrite (read_post_collection _ _ _ Hpost).
    split_and!; [by eapply read_post_ok|by eapply read_post_stable|
                 apply same_but_status_risk_refl|done].
  - cbn in Hrun. rewrite Hrun. cbn.
    pose proof (apply_items_merged d updates) as Hm.
    pose proof (merged_id _ _ _ Hm Hu) as Hid'.
    pose proof (read_post_ok _ _ _ Hpost Hok) as [Hrefs1 _].
    assert (heap s1 !! a = Some d) as Ha.
    { destruct Hpost as (_ & _ & Hp & _).
      destruct (Forall2_lookup_l _ _ _ _ _ Hp Hia) as (d0 & Hd0 & ?).
      congruence. }
    split_and!.
    + split.
      * eapply (refs_ok_grow s1); [symmetry; apply Hpost| |done]. cbn.
        by rewrite length_insert.
      * unfold collection. cbn. eapply records_ok_insert; [apply Hok|done..].
    + eapply heap_ids_stable_trans; [by eapply read_post_stable|].
      intros b e Hb. cbn. destruct (decide (b = a)) as [->|Hne].
      * eexists. split; [apply list_lookup_insert_eq; by eapply lookup_lt_Some|].
        simplify_eq. eapply merged_frame; [done|]. by apply Hu.
      * exists e. by rewrite list_lookup_insert_ne.
    + unfold collection at 2. cbn. by eapply same_but_status_risk_insert.
    + unfold collection at 1. cbn. by eapply ids_insert.
Qed.

Lemma create_applicant_ok name unit_ today s :
  store_ok s →
  let s' := (services.create_applicant name unit_ today s).2 in
  store_ok s' ∧ heap_ids_stable s s' ∧
  ids (collection s') = ids (collection s) ++ [next_id (ids (collection s))].
Proof.
  intros Hok.
  destruct (create_applicant_spec name unit_ today s Hok)
    as (data & s1 & Hpost & Hrun).
  cbn in Hrun. rewrite Hrun. cbn.
  pose proof (read_post_ok _ _ _ Hpost Hok) as [Hrefs1 _].
  split_and!.
  - split.
    + eapply (refs_ok_grow s1); [symmetry; apply Hpost| |done]. cbn.
      rewrite length_app. lia.
    + unfold collection. cbn. apply records_ok_app. split; [apply Hok|].
      constructor; [|constructor]. by eexists.
  - eapply heap_ids_stable_trans; [by eapply read_post_stable|].
    by eapply heap_ids_stable_app.
  - unfold collection at 1. cbn. by rewrite ids_app.
Qed.

Lemma records_ok_filter (P : dict → Prop) `{∀ d, Decision (P d)} ds :
  records_ok ds → records_ok (filter P ds).
Proof. intros Hok. apply Forall_forall. intros d [_ Hd]%list_elem_of_filter.
  by eapply (proj1 (Forall_forall _ _) Hok). Qed.

Lemma delete_applicant_ok app_id s :
  store_ok s →
  let s' := (services.delete_applicant app_id s).2 in
  store_ok s' ∧ heap_ids_stable s s' ∧
  ids (collection s') = filter (λ n, n ≠ app_id) (ids (collection s)).
Proof.
  intros Hok.
  destruct (delete_applicant_spec app_id s Hok)
    as (data & s1 & Hpost & [[Hno Hrun]|[Hin Hrun]]); rewrite Hrun; cbn.
  - rewrite (read_post_collection _ _ _ Hpost).
    split_and!; [by eapply read_post_ok|by eapply read_post_stable|].
    rewrite <- filter_ids. f_equal. symmetry.
    apply (proj2 (filter_ids_length app_id _ (proj2 Hok))) in Hno as Hlen.
    clear -Hlen. induction (collection s) as [|d ds IH]; [done|].
    pose proof (length_filter (λ d, id_of d ≠ Some app_id) ds).
    destruct (decide (id_of d ≠ Some app_id)).
    + rewrite filter_cons_True in * by done. f_equal. apply IH.
      cbn in Hlen. lia.
    + rewrite filter_cons_False in Hlen by done. cbn in Hlen. lia.
  - pose proof (read_post_ok _ _ _ Hpost Hok) as [Hrefs1 _].
    split_and!.
    + split; [done|]. unfold collection. cbn.
      apply records_ok_filter, Hok.
    + intros a d Ha. apply (read_post_stable _ _ _ Hpost a d Ha).
    + apply filter_ids.
Qed.

Lemma run_call_ok c s :
  store_ok s → store_ok (run_call c s) ∧ heap_ids_stable s (run_call c s).
Proof.
  intros Hok. destruct c as [|app_id|name unit_ today|app_id payload|app_id]; cbn.
  - destruct (list_applicants_spec s Hok) as (data & s1 & -> & Hpost).
    split; [by eapply read_post_ok|by eapply read_post_stable].
  - destruct (get_applicant_spec app_id s Hok) as (data & s1 & r & Hpost & -> & _).
    split; [by eapply read_post_ok|by eapply read_post_stable].
  - by destruct (create_applicant_ok name unit_ today s Hok) as (? & ? & _).
  - by destruct (update_applicant_frame app_id _ s Hok
                   (ApplicantUpdate_dict_only payload)) as (? & ? & _).
  - by destruct (delete_applicant_ok app_id s Hok) as (? & ? & _).
Qed.

Lemma run_calls_ok cs s :
  store_ok s →
  store_ok (foldl (λ s c, run_call c s) s cs) ∧
  heap_ids_stable s (foldl (λ s c, run_call c s) s cs).
Proof.
  revert s. induction cs as [|c cs IH]; intros s Hok; cbn.
  - split; [done|apply heap_ids_stable_refl].
  - destruct (run_call_ok c s Hok) as [Hok1 Hst1].
    destruct (IH _ Hok1) as [Hok2 Hst2].
    split; [done|by eapply heap_ids_stable_trans].
Qed.

(** ** The handlers *)

Lemma id_of_nonempty (d : dict) n : id_of d = Some n → d ≠ ∅.
Proof. intros Hn ->. by rewrite id_of_Some, lookup_empty in Hn. Qed.

Lemma or_404_found a (d : dict) s :
  heap s !! a = Some d → d ≠ ∅ → api.or_404 (Some a) s = (inr a, s).
Proof.
  intros Ha Hd. unfold api.or_404, py_not.
  erewrite bind_ok; last first.
  { rewrite (bind_ok _ _ _ _ _ (deref_ok _ _ _ Ha)). reflexivity. }
  by rewrite bool_decide_eq_false_2.
Qed.

Lemma not_found_cases {A} (x : exn + A) (P : Prop) :
  (¬ P → x = inl not_found) → (P → ∃ r, x = inr r) →
  (x = inl not_found ↔ ¬ P).
Proof.
  intros Hno Hyes. split; [|done].
  intros Hx HP. destruct (Hyes HP) as [r Hr]. congruence.
Qed.

Lemma api_get_applicant_spec app_id s :
  store_ok s →
  ((app_id ∉ ids (collection s)) →
     (api.get_applicant app_id s).1 = inl not_found) ∧
  (app_id ∈ ids (collection s) → ∃ a, (api.get_applicant app_id s).1 = inr a).
Proof.
  intros Hok.
  destruct (get_applicant_spec app_id s Hok) as (data & s1 & r & _ & Hrun & Hr).
  unfold api.get_applicant. rewrite (bind_ok _ _ _ _ _ Hrun).
  destruct r as [a|].
  - destruct Hr as (d & _ & Ha & Hn & Hd). split.
    + intros []. apply elem_of_ids. by exists d.
    + intros _. exists a.
      by rewrite (or_404_found _ _ _ Ha (id_of_nonempty _ _ Hn)).
  - split; [done|]. by intros ?.
Qed.

Lemma api_patch_applicant_spec app_id payload s :
  store_ok s →
  ((app_id ∉ ids (collection s)) →
     (api.patch_applicant app_id payload s).1 = inl not_found) ∧
  (app_id ∈ ids (collection s) →
     ∃ a, (api.patch_applicant app_id payload s).1 = inr a).
Proof.
  intros Hok. unfold api.patch_applicant.
  destruct (update_applicant_spec app_id (api.ApplicantUpdate_dict payload) s Hok)
    as (data & s1 & Hpost & [[Hno Hrun]|(i & a & d & Hia & Hid & Hn & _ & Hrun)]).
  - rewrite (bind_ok _ _ _ _ _ Hrun). split; [done|]. by intros ?.
  - cbn zeta in Hrun. rewrite (bind_ok _ _ _ _ _ Hrun). split.
    + intros []. apply elem_of_ids. exists d. split; [|done].
      by eapply list_elem_of_lookup_2.
    + intros _. exists a. erewrite or_404_found; [done| |].
      * cbn. apply list_lookup_insert_eq.
        destruct Hpost as (_ & _ & Hp & _).
        destruct (Forall2_lookup_l _ _ _ _ _ Hp Hia) as (d0 & _ & Ha).
        by eapply lookup_lt_Some.
      * eapply (id_of_nonempty _ app_id).
        rewrite (merged_id d (api.ApplicantUpdate_dict payload)); [done| |].
        -- apply apply_items_merged.
        -- apply ApplicantUpdate_dict_only.
Qed.

Lemma api_delete_applicant_spec app_id s :
  store_ok s →
  ((app_id ∉ ids (collection s)) →
     (api.delete_applicant app_id s).1 = inl not_found) ∧
  (app_id ∈ ids (collection s) → (api.delete_applicant app_id s).1 = inr ()).
Proof.
  intros Hok. unfold api.delete_applicant.
  destruct (delete_applicant_spec app_id s Hok)
    as (data & s1 & Hpost & [[Hno Hrun]|[Hin Hrun]]);
    rewrite (bind_ok _ _ _ _ _ Hrun); split; done.
Qed.

Lemma api_run_decision_spec app_id background_tasks s :
  store_ok s →
  ((app_id ∉ ids (collection s)) →
     (api.run_decision app_id background_tasks s).1 = inl not_found) ∧
  (app_id ∈ ids (collection s) →
     (api.run_decision app_id background_tasks s).1 =
       inr (queued app_id, background_tasks ++ [app_id])).
Proof.
  intros Hok.
  destruct (get_applicant_spec app_id s Hok) as (data & s1 & r & _ & Hrun & Hr).
  unfold api.run_decision. rewrite (bind_ok _ _ _ _ _ Hrun).
  destruct r as [a|].
  - destruct Hr as (d & _ & Ha & Hn & Hd). split.
    + intros []. apply elem_of_ids. by exists d.
    + intros _.
      by rewrite (bind_ok _ _ _ _ _
                    (or_404_found _ _ _ Ha (id_of_nonempty _ _ Hn))).
  - split; [done|]. by intros ?.
Qed.

Lemma create_applicant_returns name unit_ today s :
  store_ok s → ∃ a, (services.create_applicant name unit_ today s).1 = inr a.
Proof.
  intros Hok. destruct (create_applicant_spec name unit_ today s Hok)
    as (data & s1 & _ & Hrun). cbn zeta in Hrun. rewrite Hrun. by eexists.
Qed.

Lemma update_applicant_returns app_id updates s :
  store_ok s → ∃ r, (services.update_applicant app_id updates s).1 = inr r.
Proof.
  intros Hok. destruct (update_applicant_spec app_id updates s Hok)
    as (data & s1 & _ & [[_ Hrun]|(i & a & d & _ & _ & _ & _ & Hrun)]);
    cbn zeta in Hrun; rewrite Hrun; by eexists.
Qed.

Lemma delete_applicant_returns app_id s :
  store_ok s → ∃ r, (services.delete_applicant app_id s).1 = inr r.
Proof.
  intros Hok. destruct (delete_applicant_spec app_id s Hok)
    as (data & s1 & _ & [[_ Hrun]|[_ Hrun]]); rewrite Hrun; by eexists.
Qed.

Lemma list_calls_keep n s :
  store_ok s →
  store_ok (Nat.iter n (λ s, (services.list_applicants s).2) s) ∧
  collection (Nat.iter n (λ s, (services.list_applicants s).2) s)
    = collection s.
Proof.
  intros Hok. induction n as [|n [IHok IHc]]; [done|].
  rewrite Nat.iter_succ.
  destruct (list_applicants_spec _ IHok) as (data & s1 & Hrun & Hpost).
  rewrite Hrun. cbn [snd]. split; [by eapply read_post_ok|].
  by rewrite (read_post_collection _ _ _ Hpost).
Qed.

(** ** The decision task *)

Lemma or_404_state x s : (api.or_404 x s).2 = s.
Proof.
  unfold api.or_404, py_not, mbind, M_bind, deref, mret, M_ret, raise.
  destruct x as [a|]; [|done].
  destruct (heap s !! a) as [d|]; [|done]. by case_bool_decide.
Qed.

Lemma patch_applicant_state app_id payload s :
  (api.patch_applicant app_id payload s).2 =
  (services.update_applicant app_id (api.ApplicantUpdate_dict payload) s).2.
Proof.
  unfold api.patch_applicant, mbind, M_bind.
  destruct (services.update_applicant _ _ s) as [[e|r] s']; [done|].
  apply or_404_state.
Qed.

Lemma engine_decision app_id :
  (if py_eq (VInt (app_id `mod` 2)) (VInt 0) then "Low" else "Medium")
  = (if Z.even app_id then "Low" else "Medium").
Proof.
  rewrite py_eq_int, Zmod_even.
  by destruct (Z.even app_id).
Qed.

(** The task on an applicant that exists when it begins: after the delay it
    calls [update_applicant] with the decision for that id. *)
Lemma task_found py_format app_id cs now s :
  store_ok s → app_id ∈ ids (collection s) →
  services.task py_format app_id (others cs) now s =
    void (services.update_applicant app_id (decision app_id)
            (foldl (λ s c, run_call c s)
                   (services.get_applicant app_id s).2 cs)).
Proof.
  intros Hok Hin.
  destruct (get_applicant_spec app_id s Hok)
    as (data & s1 & r & Hpost & Hrun & Hr).
  destruct r as [a|]; [|done]. destruct Hr as (d & _ & Ha & Hn & _).
  rewrite Hrun. cbn [snd].
  pose proof (read_post_ok _ _ _ Hpost Hok) as Hok1.
  destruct (run_calls_ok cs s1 Hok1) as [Hok2 Hst].
  destruct (Hst a d Ha) as (d2 & Ha2 & Hid2).
  apply id_of_Some in Hn. rewrite <- Hid2 in Hn.
  unfold services.task. rewrite (bind_ok _ _ _ _ _ Hrun).
  erewrite bind_ok; last first.
  { unfold py_not. rewrite (bind_ok _ _ _ _ _ (deref_ok _ _ _ Ha)). reflexivity. }
  rewrite bool_decide_eq_false_2; last first.
  { apply (id_of_nonempty _ app_id), id_of_Some. by rewrite <- Hid2. }
  erewrite bind_ok; last first.
  { unfold services._mock_decision_engine.
    erewrite bind_ok by reflexivity.
    rewrite (bind_ok _ _ _ _ _ (getitem_ok _ _ _ _ _ Ha2 Hn)).
    erewrite bind_ok by reflexivity.
    rewrite engine_decision. reflexivity. }
  erewrite bind_ok by reflexivity. erewrite bind_ok by reflexivity.
  unfold void, mbind, M_bind, decision.
  by destruct (services.update_applicant _ _ _) as [[e|r] s'].
Qed.

(** The task on an id that is not in the collection stops after the lookup. *)
Lemma task_not_found py_format app_id sleep now s :
  store_ok s → app_id ∉ ids (collection s) →
  services.task py_format app_id sleep now s =
    (inr (), (services.get_applicant app_id s).2).
Proof.
  intros Hok Hno.
  destruct (get_applicant_spec app_id s Hok)
    as (data & s1 & r & Hpost & Hrun & Hr).
  destruct r as [a|].
  { destruct Hr as (d & _ & _ & Hn & Hd). exfalso.
    apply Hno, elem_of_ids. by exists d. }
  unfold services.task. by rewrite Hrun, (bind_ok _ _ _ _ _ Hrun).
Qed.

Lemma decision_status app_id :
  decision app_id !! "status" = Some (VStr "Decision Ready").
Proof. done. Qed.

Lemma decision_risk app_id :
  decision app_id !! "risk"
    = Some (VStr (if Z.even app_id then "Low" else "Medium")).
Proof. done. Qed.

(** ** Runs from startup *)

Lemma seed_records_ok : records_ok seed_records.
Proof. repeat constructor; by eexists. Qed.

Lemma startup_ok file : records_ok (default [] file) → store_ok (startup file).
Proof.
  intros Hrec. split.
  - split; [by repeat constructor|]. cbn.
    apply (bool_decide_unpack _). by vm_compute.
  - destruct file as [ds|]; [done|]. apply seed_records_ok.
Qed.

Lemma startup_intact file : seeds_intact (startup file).
Proof. done. Qed.

Lemma seeds_intact_length s : seeds_intact s → 5 ≤ length (heap s).
Proof.
  intros [_ Ht]. apply (f_equal length) in Ht.
  rewrite length_take in Ht. change (length seed_records) with 5 in Ht. lia.
Qed.

Lemma seeds_intact_collection s :
  seeds_intact s → (λ a, heap s !!! a) <$> DEFAULTS s = seed_records.
Proof.
  intros [-> Ht]. rewrite <- (take_drop 5 (heap s)), Ht. done.
Qed.

Lemma seeds_intact_keep s s' :
  seeds_intact s → DEFAULTS s' = DEFAULTS s →
  take 5 (heap s') = take 5 (heap s) → seeds_intact s'.
Proof. intros [HD Ht] HD' Ht'. split; congruence. Qed.

Lemma read_post_intact s data s1 :
  read_post s data s1 → seeds_intact s → seeds_intact s1.
Proof.
  intros Hpost Hs. destruct (read_post_heap _ _ _ Hpost) as [h' Hh].
  eapply seeds_intact_keep; [done|apply Hpost|].
  rewrite Hh. by apply take_app_le, seeds_intact_length.
Qed.

(** A call that finds the data file works on fresh objects only. *)
Lemma run_call_intact c s :
  store_ok s → is_Some (DATA_FILE s) → seeds_intact s →
  seeds_intact (run_call c s).
Proof.
  intros Hok [ds Hds] Hs.
  destruct c as [|app_id|name unit_ today|app_id payload|app_id]; cbn.
  - destruct (list_applicants_spec s Hok) as (data & s1 & -> & Hpost).
    by eapply read_post_intact.
  - destruct (get_applicant_spec app_id s Hok) as (data & s1 & r & Hpost & -> & _).
    by eapply read_post_intact.
  - destruct (create_applicant_spec name unit_ today s Hok)
      as (data & s1 & Hpost & Hrun). cbn zeta in Hrun. rewrite Hrun. cbn [snd].
    pose proof (read_post_intact _ _ _ Hpost Hs) as Hs1.
    eapply (seeds_intact_keep s1); [done|symmetry; apply Hpost|]. cbn.
    by apply take_app_le, seeds_intact_length.
  - destruct (update_applicant_spec app_id (api.ApplicantUpdate_dict payload)
                s Hok)
      as (data & s1 & Hpost & [[_ Hrun]|(i & a & d & Hia & _ & _ & _ & Hrun)]).
    + rewrite Hrun. by eapply read_post_intact.
    + cbn zeta in Hrun. rewrite Hrun. cbn [snd].
      pose proof (read_post_intact _ _ _ Hpost Hs) as Hs1.
      eapply (seeds_intact_keep s1); [done|symmetry; apply Hpost|]. cbn.
      apply take_insert_ge.
      destruct Hpost as (_ & _ & _ & _ & _ & Hsome).
      destruct (Hsome _ Hds) as [-> _].
      apply lookup_seq in Hia as [-> _].
      pose proof (seeds_intact_length _ Hs). lia.
  - destruct (delete_applicant_spec app_id s Hok)
      as (data & s1 & Hpost & [[_ Hrun]|[_ Hrun]]); rewrite Hrun; cbn [snd].
    + by eapply read_post_intact.
    + pose proof (read_post_intact _ _ _ Hpost Hs) as Hs1.
      by eapply (seeds_intact_keep s1).
Qed.

Lemma run_event_ok e s :
  store_ok s → seeds_intact s → store_ok (run_event e s).
Proof.
  intros Hok Hs. destruct e as [c|]; cbn.
  - by apply run_call_ok.
  - split; [apply Hok|]. unfold collection. cbn.
    rewrite (seeds_intact_collection _ Hs). apply seed_records_ok.
Qed.

Lemma never_seeded_run es s :
  never_seeded es s → store_ok s → seeds_intact s →
  store_ok (foldl (λ s e, run_event e s) s es) ∧
  seeds_intact (foldl (λ s e, run_event e s) s es).
Proof.
  revert s. induction es as [|e es IH]; intros s Hnever Hok Hs; [done|].
  destruct Hnever as [Hfile Hnever]. cbn [foldl]. apply IH; [done| |].
  - by apply run_event_ok.
  - destruct e as [c|]; [by apply run_call_intact|done].
Qed.

Lemma run_call_DEFAULTS c s : store_ok s → DEFAULTS (run_call c s) = DEFAULTS s.
Proof.
  intros Hok.
  destruct c as [|app_id|name unit_ today|app_id payload|app_id]; cbn.
  - destruct (list_applicants_spec s Hok) as (data & s1 & -> & Hpost).
    apply Hpost.
  - destruct (get_applicant_spec app_id s Hok) as (data & s1 & r & Hpost & -> & _).
    apply Hpost.
  - destruct (create_applicant_spec name unit_ today s Hok)
      as (data & s1 & Hpost & Hrun). cbn zeta in Hrun. by rewrite Hrun.
  - destruct (update_applicant_spec app_id (api.ApplicantUpdate_dict payload)
                s Hok)
      as (data & s1 & Hpost & [[_ Hrun]|(i & a & d & _ & _ & _ & _ & Hrun)]);
      cbn zeta in Hrun; rewrite Hrun; [apply Hpost|done].
  - destruct (delete_applicant_spec app_id s Hok)
      as (data & s1 & Hpost & [[_ Hrun]|[_ Hrun]]); rewrite Hrun; apply Hpost.
Qed.

(** The seed objects keep their integer ids through every call. *)
Lemma seeds_ok_stable s s' :
  refs_ok s → DEFAULTS s' = DEFAULTS s → heap_ids_stable s s' →
  records_ok ((λ a, heap s !!! a) <$> DEFAULTS s) →
  records_ok ((λ a, heap s' !!! a) <$> DEFAULTS s').
Proof.
  intros [Hlive _] -> Hst Hrec. unfold records_ok in *.
  rewrite Forall_fmap in *. rewrite Forall_forall in *.
  intros a Ha. specialize (Hrec a Ha). cbn in *.
  pose proof (Hlive a Ha) as Hlt. cbn in Hlt.
  apply lookup_lt_is_Some_2 in Hlt as [d Hd].
  destruct (Hst a d Hd) as (d' & Hd' & Hid).
  rewrite (list_lookup_total_correct _ _ _ Hd) in Hrec.
  rewrite (list_lookup_total_correct _ _ _ Hd').
  unfold id_of in *. by rewrite Hid.
Qed.

(** Every state the process reaches from startup is well formed, so the
    hypothesis [store_ok] of the claims below excludes no state of a run. *)
Lemma reachable_ok file es :
  records_ok (default [] file) →
  store_ok (foldl (λ s e, run_event e s) (startup file) es).
Proof.
  intros Hrec.
  assert (∀ s, store_ok s →
               records_ok ((λ a, heap s !!! a) <$> DEFAULTS s) →
               store_ok (foldl (λ s e, run_event e s) s es)) as Hrun.
  { induction es as [|e es IH]; intros s Hok Hseeds; [done|]. cbn [foldl].
    destruct e as [c|]; cbn [run_event].
    - destruct (run_call_ok c s Hok) as [Hok' Hst]. apply IH; [done|].
      eapply seeds_ok_stable; [apply Hok|by apply run_call_DEFAULTS|done..].
    - apply IH; [|done]. split; [apply Hok|done]. }
  apply Hrun; [by apply startup_ok|apply seed_records_ok].
Qed.

(** * The claims *)

(** C1. On every collection of applicant records, [create_applicant] gives
    the new record the id (max existing id) + 1, and 1001 when the collection
    is empty; the new id is strictly greater than every existing id.  The new
    record is appended to the persisted collection. *)
Theorem create_applicant_next_id name unit_ today s :
  store_ok s →
  ∃ a new new_id s',
    services.create_applicant name unit_ today s = (inr a, s') ∧
    heap s' !! a = Some new ∧
    collection s' = collection s ++ [new] ∧
    new !! "id" = Some (VInt new_id) ∧
    (ids (collection s) = [] → new_id = 1001%Z) ∧
    (ids (collection s) ≠ [] →
       (new_id - 1)%Z ∈ ids (collection s) ∧
       Forall (λ n, n ≤ new_id - 1)%Z (ids (collection s))) ∧
    Forall (λ n, n < new_id)%Z (ids (collection s)).
Proof.
  intros Hok.
  destruct (create_applicant_spec name unit_ today s Hok)
    as (data & s1 & Hpost & Hrun). cbn zeta in Hrun.
  eexists _, _, (next_id (ids (collection s))), _. split; [exact Hrun|].
  split_and!.
  - cbn. by rewrite list_lookup_middle.
  - done.
  - done.
  - by intros ->.
  - intros Hne. split; [by apply next_id_tight|].
    eapply Forall_impl; [apply next_id_above|]. cbn. intros; lia.
  - apply next_id_above.
Qed.

Lemma create_applicant_next_id_witness :
  store_ok (startup None) ∧
  ∃ a new new_id s',
    services.create_applicant "Zed" "1A" "2026-01-05" (startup None)
      = (inr a, s') ∧
    heap s' !! a = Some new ∧
    collection s' = collection (startup None) ++ [new] ∧
    new !! "id" = Some (VInt new_id) ∧
    (ids (collection (startup None)) = [] → new_id = 1001%Z) ∧
    (ids (collection (startup None)) ≠ [] →
       (new_id - 1)%Z ∈ ids (collection (startup None)) ∧
       Forall (λ n, n ≤ new_id - 1)%Z (ids (collection (startup None)))) ∧
    Forall (λ n, n < new_id)%Z (ids (collection (startup None))).
Proof.
  assert (store_ok (startup None)) as Hok
    by (apply (bool_decide_unpack _); vm_compute; exact I).
  split; [exact Hok|]. by apply create_applicant_next_id.
Defined.

(** C3. For every existing applicant id and every update payload, the partial
    update overwrites exactly the fields whose supplied value is non-null:
    in the first record [d] with that id, a field supplied with a non-null
    value takes that value, every field not supplied or supplied as null
    keeps its previous value ([merged]); every other record of the persisted
    collection is unchanged, and the updated object is returned. *)
Theorem update_applicant_partial app_id (updates : dict) s :
  store_ok s → app_id ∈ ids (collection s) →
  ∃ i a d d' s',
    services.update_applicant app_id updates s = (inr (Some a), s') ∧
    collection s !! i = Some d ∧ id_of d = Some app_id ∧
    (app_id ∉ ids (take i (collection s))) ∧
    (∀ k, d' !! k = match updates !! k with
                    | Some v => if bool_decide (v = VNone) then d !! k
                                else Some v
                    | None => d !! k
                    end) ∧
    heap s' !! a = Some d' ∧
    collection s' = <[i := d']> (collection s).
Proof.
  intros Hok Hin.
  destruct (update_applicant_spec app_id updates s Hok)
    as (data & s1 & Hpost & [[Hno _]|(i & a & d & Hia & Hid & Hn & Hfst & Hrun)]);
    [done|].
  cbn zeta in Hrun. eexists i, a, d, _, _. split; [exact Hrun|].
  split_and!; try done.
  - apply apply_items_merged.
  - cbn. apply list_lookup_insert_eq.
    destruct Hpost as (_ & _ & Hp & _).
    destruct (Forall2_lookup_l _ _ _ _ _ Hp Hia) as (d0 & _ & Ha).
    by eapply lookup_lt_Some.
Qed.

Lemma update_applicant_partial_witness :
  let updates : dict := <["status" := VStr "Approved/Leased"]>
                          (<["risk" := VNone]> ∅) in
  store_ok (startup None) ∧ 1002%Z ∈ ids (collection (startup None)) ∧
  ∃ i a d d' s',
    services.update_applicant 1002 updates (startup None) = (inr (Some a), s') ∧
    collection (startup None) !! i = Some d ∧ id_of d = Some 1002%Z ∧
    (1002%Z ∉ ids (take i (collection (startup None)))) ∧
    (∀ k, d' !! k = match updates !! k with
                    | Some v => if bool_decide (v = VNone) then d !! k
                                else Some v
                    | None => d !! k
                    end) ∧
    heap s' !! a = Some d' ∧
    collection s' = <[i := d']> (collection (startup None)).
Proof.
  intros updates.
  assert (store_ok (startup None)) as Hok
    by (apply (bool_decide_unpack _); vm_compute; exact I).
  assert (1002%Z ∈ ids (collection (startup None))) as Hin
    by (apply (bool_decide_unpack _); vm_compute; exact I).
  split_and!; [exact Hok|exact Hin|].
  by apply update_applicant_partial.
Defined.

(** C4. For every id that is not in the collection and every update payload,
    the update reports not-found ([None] from the service, 404 from the PATCH
    handler) and leaves the persisted collection exactly as it was: no record
    added, removed or modified, and no object of the heap touched.  When the
    data file exists it is left as it is; when it does not, the read at the
    start of the call creates it with the collection it stands for. *)
Theorem update_unknown_id app_id (updates : dict) payload s :
  store_ok s → app_id ∉ ids (collection s) →
  ∃ s',
    services.update_applicant app_id updates s = (inr None, s') ∧
    api.patch_applicant app_id payload s =
      (inl (HTTPException 404 "Applicant not found"), s') ∧
    collection s' = collection s ∧
    DATA_FILE s' = Some (collection s) ∧
    (∀ ds, DATA_FILE s = Some ds → DATA_FILE s' = Some ds) ∧
    DEFAULTS s' = DEFAULTS s ∧
    ∃ h', heap s' = heap s ++ h'.
Proof.
  intros Hok Hno.
  destruct (update_applicant_spec app_id updates s Hok)
    as (data & s1 & Hpost & [[_ Hrun]|(i & a & d & _ & Hid & Hn & _)]);
    last first.
  { exfalso. apply Hno, elem_of_ids. exists d. split; [|done].
    by eapply list_elem_of_lookup_2. }
  destruct (update_applicant_spec app_id (api.ApplicantUpdate_dict payload) s Hok)
    as (data' & s1' & Hpost' & [[_ Hrun']|(i & a & d & _ & Hid & Hn & _)]);
    last first.
  { exfalso. apply Hno, elem_of_ids. exists d. split; [|done].
    by eapply list_elem_of_lookup_2. }
  destruct (read_post_det _ _ _ _ _ Hpost Hpost') as [_ <-].
  exists s1. split_and!.
  - done.
  - unfold api.patch_applicant. by rewrite (bind_ok _ _ _ _ _ Hrun').
  - by eapply read_post_collection.
  - apply Hpost.
  - intros ds Hds. destruct Hpost as (_ & -> & _). unfold collection.
    by rewrite Hds.
  - apply Hpost.
  - by eapply read_post_heap.
Qed.

Lemma update_unknown_id_witness :
  let updates : dict := <["name" := VStr "Nobody"]> ∅ in
  let payload := api.Build_ApplicantUpdate (Some "Denied") None in
  store_ok (startup None) ∧ (4242%Z ∉ ids (collection (startup None))) ∧
  ∃ s',
    services.update_applicant 4242 updates (startup None) = (inr None, s') ∧
    api.patch_applicant 4242 payload (startup None) =
      (inl (HTTPException 404 "Applicant not found"), s') ∧
    collection s' = collection (startup None) ∧
    DATA_FILE s' = Some (collection (startup None)) ∧
    (∀ ds, DATA_FILE (startup None) = Some ds → DATA_FILE s' = Some ds) ∧
    DEFAULTS s' = DEFAULTS (startup None) ∧
    ∃ h', heap s' = heap (startup None) ++ h'.
Proof.
  intros updates payload.
  assert (store_ok (startup None)) as Hok
    by (apply (bool_decide_unpack _); vm_compute; exact I).
  assert (4242%Z ∉ ids (collection (startup None))) as Hno
    by (apply (bool_decide_unpack _); vm_compute; exact I).
  split_and!; [exact Hok|exact Hno|].
  by apply update_unknown_id.
Defined.

(** C5. If all record ids of the collection are distinct, they still are
    after each store operation: create, update with the handler's
    [status]/[risk] payload, and delete (each of which returns normally). *)
Theorem ids_stay_unique name unit_ today app_id payload s :
  store_ok s → NoDup (ids (collection s)) →
  (∃ a s', services.create_applicant name unit_ today s = (inr a, s') ∧
           NoDup (ids (collection s'))) ∧
  (∃ r s', services.update_applicant app_id
             (api.ApplicantUpdate_dict payload) s = (inr r, s') ∧
           NoDup (ids (collection s'))) ∧
  (∃ b s', services.delete_applicant app_id s = (inr b, s') ∧
           NoDup (ids (collection s'))).
Proof.
  intros Hok Hnd. split_and!.
  - destruct (create_applicant_returns name unit_ today s Hok) as [a Ha].
    destruct (create_applicant_ok name unit_ today s Hok) as (_ & _ & Hids).
    cbn zeta in Hids.
    destruct (services.create_applicant name unit_ today s) as [r s'].
    cbn in *. subst r. exists a, s'. split; [done|]. rewrite Hids.
    apply NoDup_app. split_and!; [done| |apply NoDup_singleton].
    intros n Hn ->%list_elem_of_singleton.
    pose proof (next_id_above (ids (collection s))) as Habove.
    rewrite Forall_forall in Habove. specialize (Habove _ Hn). lia.
  - destruct (update_applicant_returns app_id
                (api.ApplicantUpdate_dict payload) s Hok) as [r Hr].
    destruct (update_applicant_frame app_id _ s Hok
                (ApplicantUpdate_dict_only payload)) as (_ & _ & _ & Hids).
    cbn zeta in Hids.
    destruct (services.update_applicant app_id _ s) as [r0 s'].
    cbn in *. subst r0. exists r, s'. split; [done|]. by rewrite Hids.
  - destruct (delete_applicant_returns app_id s Hok) as [b Hb].
    destruct (delete_applicant_ok app_id s Hok) as (_ & _ & Hids).
    cbn zeta in Hids.
    destruct (services.delete_applicant app_id s) as [r0 s'].
    cbn in *. subst r0. exists b, s'. split; [done|]. rewrite Hids.
    by apply NoDup_filter.
Qed.

Lemma ids_stay_unique_witness :
  let payload := api.Build_ApplicantUpdate (Some "Denied") (Some "High") in
  store_ok (startup None) ∧ NoDup (ids (collection (startup None))) ∧
  (∃ a s', services.create_applicant "Zed" "1A" "2026-01-05" (startup None)
             = (inr a, s') ∧
           NoDup (ids (collection s'))) ∧
  (∃ r s', services.update_applicant 1003
             (api.ApplicantUpdate_dict payload) (startup None) = (inr r, s') ∧
           NoDup (ids (collection s'))) ∧
  (∃ b s', services.delete_applicant 1003 (startup None) = (inr b, s') ∧
           NoDup (ids (collection s'))).
Proof.
  intros payload.
  assert (store_ok (startup None)) as Hok
    by (apply (bool_decide_unpack _); vm_compute; exact I).
  assert (NoDup (ids (collection (startup None)))) as Hnd
    by (apply (bool_decide_unpack _); vm_compute; exact I).
  split_and!; [exact Hok|exact Hnd|..];
    by apply (ids_stay_unique "Zed" "1A" "2026-01-05" 1003 payload).
Defined.

(** C6. If exactly one record of the collection has the given id, delete on
    that id succeeds (the service returns [True], the handler does not raise)
    and every following list call, however many there are, returns a
    collection without a record of that id: the old collection less that
    record. *)
Theorem delete_then_list app_id s :
  store_ok s →
  length (filter (λ d, id_of d = Some app_id) (collection s)) = 1 →
  ∃ s1,
    services.delete_applicant app_id s = (inr true, s1) ∧
    api.delete_applicant app_id s = (inr (), s1) ∧
    ∀ n, ∃ data s',
      services.list_applicants
        (Nat.iter n (λ s, (services.list_applicants s).2) s1) = (inr data, s') ∧
      let ds := filter (λ d, id_of d ≠ Some app_id) (collection s) in
      points_to (heap s') data ds ∧ (app_id ∉ ids ds).
Proof.
  intros Hok Hone.
  assert (app_id ∈ ids (collection s)) as Hin.
  { destruct (filter _ (collection s)) as [|d l] eqn:Hf; [done|].
    assert (d ∈ filter (λ d, id_of d = Some app_id) (collection s)) as Hd
      by (rewrite Hf; apply list_elem_of_here).
    apply list_elem_of_filter in Hd as [Hid Hd]. apply elem_of_ids. by exists d. }
  destruct (delete_applicant_spec app_id s Hok)
    as (data & s1 & Hpost & [[Hno _]|[_ Hrun]]); [done|].
  pose proof (delete_applicant_ok app_id s Hok) as (Hok' & _ & _).
  cbn zeta in Hok'. rewrite Hrun in Hok'. cbn in Hok'.
  eexists. split_and!; [exact Hrun| |].
  { unfold api.delete_applicant. by rewrite (bind_ok _ _ _ _ _ Hrun). }
  intros n. destruct (list_calls_keep n _ Hok') as [Hokn Hcn].
  destruct (list_applicants_spec _ Hokn) as (data' & s' & Hlist & Hpost').
  exists data', s'. split; [done|]. cbn zeta. split.
  - destruct Hpost' as (_ & _ & Hp & _). by rewrite Hcn in Hp.
  - rewrite filter_ids. intros [? _]%list_elem_of_filter. done.
Qed.

Lemma delete_then_list_witness :
  store_ok (startup None) ∧
  length (filter (λ d, id_of d = Some 1004%Z) (collection (startup None))) = 1 ∧
  ∃ s1,
    services.delete_applicant 1004 (startup None) = (inr true, s1) ∧
    api.delete_applicant 1004 (startup None) = (inr (), s1) ∧
    ∀ n, ∃ data s',
      services.list_applicants
        (Nat.iter n (λ s, (services.list_applicants s).2) s1) = (inr data, s') ∧
      let ds := filter (λ d, id_of d ≠ Some 1004%Z)
                  (collection (startup None)) in
      points_to (heap s') data ds ∧ (1004%Z ∉ ids ds).
Proof.
  assert (store_ok (startup None)) as Hok
    by (apply (bool_decide_unpack _); vm_compute; exact I).
  split_and!; [exact Hok|by vm_compute|].
  apply delete_then_list; [exact Hok|by vm_compute].
Defined.

(** C7. For every id, each of the handlers get, partial update, delete and
    run-decision answers 404 exactly when no record of the collection has
    that id; run-decision on an existing id returns the queued acknowledgment
    and schedules the decision task for that id. *)
Theorem not_found_iff app_id payload background_tasks s :
  store_ok s →
  ((api.get_applicant app_id s).1 = inl not_found ↔
     app_id ∉ ids (collection s)) ∧
  ((api.patch_applicant app_id payload s).1 = inl not_found ↔
     app_id ∉ ids (collection s)) ∧
  ((api.delete_applicant app_id s).1 = inl not_found ↔
     app_id ∉ ids (collection s)) ∧
  ((api.run_decision app_id background_tasks s).1 = inl not_found ↔
     app_id ∉ ids (collection s)) ∧
  (app_id ∈ ids (collection s) →
     (api.run_decision app_id background_tasks s).1 =
       inr (queued app_id,
            services.enqueue_decision_agent background_tasks app_id)).
Proof.
  intros Hok.
  destruct (api_get_applicant_spec app_id s Hok) as [Hg0 Hg1].
  destruct (api_patch_applicant_spec app_id payload s Hok) as [Hp0 Hp1].
  destruct (api_delete_applicant_spec app_id s Hok) as [Hd0 Hd1].
  destruct (api_run_decision_spec app_id background_tasks s Hok) as [Hr0 Hr1].
  split_and!; try by apply not_found_cases; eauto.
  done.
Qed.

Lemma not_found_iff_witness :
  let payload := api.Build_ApplicantUpdate (Some "Denied") None in
  store_ok (startup None) ∧
  ((api.get_applicant 1003 (startup None)).1 = inl not_found ↔
     1003%Z ∉ ids (collection (startup None))) ∧
  ((api.patch_applicant 1003 payload (startup None)).1 = inl not_found ↔
     1003%Z ∉ ids (collection (startup None))) ∧
  ((api.delete_applicant 1003 (startup None)).1 = inl not_found ↔
     1003%Z ∉ ids (collection (startup None))) ∧
  ((api.run_decision 1003 [] (startup None)).1 = inl not_found ↔
     1003%Z ∉ ids (collection (startup None))) ∧
  (1003%Z ∈ ids (collection (startup None)) →
     (api.run_decision 1003 [] (startup None)).1 =
       inr (queued 1003, services.enqueue_decision_agent [] 1003)).
Proof.
  intros payload.
  assert (store_ok (startup None)) as Hok
    by (apply (bool_decide_unpack _); vm_compute; exact I).
  split; [exact Hok|]. by apply not_found_iff.
Defined.

(** C2. For every applicant that exists when the decision task begins, the
    task computes risk Low if the applicant's id is even and Medium
    otherwise, status Decision Ready in both cases, and writes that pair back
    through [update_applicant], whatever calls [cs] other requests make during
    the delay: the task is that call, made in the state [s2] the delay ends
    in.  If the applicant is still there in [s2] (as it is when nothing
    intervenes), its record gets this status and risk and no other change, and
    the rest of the collection is as it was in [s2]. *)
Theorem task_writes_decision py_format app_id cs now s :
  store_ok s → app_id ∈ ids (collection s) →
  let s2 := foldl (λ s c, run_call c s) (services.get_applicant app_id s).2 cs in
  let risk := if Z.even app_id then "Low" else "Medium" in
  services.task py_format app_id (others cs) now s =
    void (services.update_applicant app_id
            (<["status" := VStr "Decision Ready"]> (<["risk" := VStr risk]> ∅))
            s2) ∧
  (cs = [] → collection s2 = collection s) ∧
  (app_id ∈ ids (collection s2) →
     ∃ i d d' s',
       services.task py_format app_id (others cs) now s = (inr (), s') ∧
       collection s2 !! i = Some d ∧ id_of d = Some app_id ∧
       (app_id ∉ ids (take i (collection s2))) ∧
       collection s' = <[i := d']> (collection s2) ∧
       d' !! "status" = Some (VStr "Decision Ready") ∧
       d' !! "risk" = Some (VStr risk) ∧
       ∀ k, k ≠ "status" → k ≠ "risk" → d' !! k = d !! k).
Proof.
  intros Hok Hin s2 risk.
  pose proof (task_found py_format app_id cs now s Hok Hin) as Htask.
  fold s2 in Htask. split_and!.
  - exact Htask.
  - intros ->. subst s2. cbn.
    destruct (get_applicant_spec app_id s Hok) as (data & s1 & r & Hpost & -> & _).
    by eapply read_post_collection.
  - intros Hin2.
    assert (store_ok s2) as Hok2.
    { destruct (get_applicant_spec app_id s Hok)
        as (data & s1 & r & Hpost & Hrun & _).
      subst s2. rewrite Hrun. cbn [snd].
      by apply run_calls_ok, (read_post_ok _ _ _ Hpost). }
    destruct (update_applicant_spec app_id (decision app_id) s2 Hok2)
      as (data & s1 & Hpost &
          [[Hno _]|(i & a & d & Hia & Hid & Hn & Hfst & Hrun)]); [done|].
    cbn zeta in Hrun. rewrite Hrun in Htask.
    pose proof (apply_items_merged d (decision app_id)) as Hm.
    eexists i, d, _, _. split_and!; [exact Htask|done..| | |].
    + by rewrite (Hm "status"), decision_status.
    + by rewrite (Hm "risk"), decision_risk.
    + intros k Hs Hr. eapply merged_frame; [exact Hm|]. by apply decision_only.
Qed.

Lemma task_writes_decision_witness :
  let py_format : string → Z → exn + string := λ _ _, inl TypeError in
  let cs := [CallDelete 1005; CallCreate "Zed" "1A" "2026-01-05"] in
  let s := startup None in
  let s2 := foldl (λ s c, run_call c s) (services.get_applicant 1004 s).2 cs in
  store_ok s ∧ 1004%Z ∈ ids (collection s) ∧ 1004%Z ∈ ids (collection s2) ∧
  services.task py_format 1004 (others cs) "2026-01-05T10:00:00" s =
    void (services.update_applicant 1004
            (<["status" := VStr "Decision Ready"]> (<["risk" := VStr "Low"]> ∅))
            s2) ∧
  ∃ i d d' s',
    services.task py_format 1004 (others cs) "2026-01-05T10:00:00" s
      = (inr (), s') ∧
    collection s2 !! i = Some d ∧ id_of d = Some 1004%Z ∧
    (1004%Z ∉ ids (take i (collection s2))) ∧
    collection s' = <[i := d']> (collection s2) ∧
    d' !! "status" = Some (VStr "Decision Ready") ∧
    d' !! "risk" = Some (VStr "Low") ∧
    ∀ k, k ≠ "status" → k ≠ "risk" → d' !! k = d !! k.
Proof.
  intros py_format cs s s2.
  assert (store_ok s) as Hok
    by (apply (bool_decide_unpack _); vm_compute; exact I).
  assert (1004%Z ∈ ids (collection s)) as Hin
    by (apply (bool_decide_unpack _); vm_compute; exact I).
  assert (1004%Z ∈ ids (collection s2)) as Hin2
    by (apply (bool_decide_unpack _); vm_compute; exact I).
  destruct (task_writes_decision py_format 1004 cs "2026-01-05T10:00:00" s
              Hok Hin) as (Hcall & _ & Hwrite).
  split_and!; [exact Hok|exact Hin|exact Hin2|exact Hcall|exact (Hwrite Hin2)].
Defined.

(** C9. For every applicant id that is not in the collection when the
    decision task begins, the task returns right after its lookup: it never
    reaches [update_applicant], so it performs no write-back, and the
    persisted collection is unchanged.  An existing data file keeps its
    content, [DEFAULTS] and every object are untouched; if the file did not
    exist, the read of the lookup has created it with the collection it
    stands for. *)
Theorem task_unknown_id py_format app_id sleep now s :
  store_ok s → app_id ∉ ids (collection s) →
  ∃ s',
    services.task py_format app_id sleep now s = (inr (), s') ∧
    s' = (services.get_applicant app_id s).2 ∧
    collection s' = collection s ∧
    DATA_FILE s' = Some (collection s) ∧
    (∀ ds, DATA_FILE s = Some ds → DATA_FILE s' = Some ds) ∧
    DEFAULTS s' = DEFAULTS s ∧
    ∃ h', heap s' = heap s ++ h'.
Proof.
  intros Hok Hno. eexists. split; [by apply task_not_found|].
  destruct (get_applicant_spec app_id s Hok) as (data & s1 & r & Hpost & -> & _).
  cbn [snd]. split_and!.
  - done.
  - by eapply read_post_collection.
  - apply Hpost.
  - intros ds Hds. destruct Hpost as (_ & -> & _). unfold collection.
    by rewrite Hds.
  - apply Hpost.
  - by eapply read_post_heap.
Qed.

Lemma task_unknown_id_witness :
  let py_format : string → Z → exn + string := λ _ _, inl TypeError in
  let sleep := others [CallDelete 1001] in
  let s := startup (Some (take 2 seed_records)) in
  store_ok s ∧ (1003%Z ∉ ids (collection s)) ∧
  ∃ s',
    services.task py_format 1003 sleep "2026-01-05T10:00:00" s = (inr (), s') ∧
    s' = (services.get_applicant 1003 s).2 ∧
    collection s' = collection s ∧
    DATA_FILE s' = Some (collection s) ∧
    (∀ ds, DATA_FILE s = Some ds → DATA_FILE s' = Some ds) ∧
    DEFAULTS s' = DEFAULTS s ∧
    ∃ h', heap s' = heap s ++ h'.
Proof.
  intros py_format sleep s.
  assert (store_ok s) as Hok
    by (apply (bool_decide_unpack _); vm_compute; exact I).
  assert (1003%Z ∉ ids (collection s)) as Hno
    by (apply (bool_decide_unpack _); vm_compute; exact I).
  split_and!; [exact Hok|exact Hno|].
  by apply task_unknown_id.
Defined.

(** C10. Neither a PATCH through the handler nor the write-back of the
    decision task changes a field other than [status] and [risk]: the
    collection keeps its records, in order, and each of them keeps [id],
    [name], [unit], [date], [income_match], [error_rate] and every other such
    field (so no [note] is stored either).  For the task the comparison is
    with the collection [s2] at the end of the delay, when it writes; a task
    whose applicant is unknown leaves the collection as it found it. *)
Theorem status_risk_only py_format app_id payload cs now s :
  store_ok s →
  same_but_status_risk
    (collection s) (collection (api.patch_applicant app_id payload s).2) ∧
  let s2 := foldl (λ s c, run_call c s) (services.get_applicant app_id s).2 cs in
  let s' := (services.task py_format app_id (others cs) now s).2 in
  (app_id ∉ ids (collection s) → collection s' = collection s) ∧
  (app_id ∈ ids (collection s) →
     same_but_status_risk (collection s2) (collection s')).
Proof.
  intros Hok. split; [|intros s2 s'; subst s2 s'; split].
  - rewrite patch_applicant_state.
    by destruct (update_applicant_frame app_id _ s Hok
                   (ApplicantUpdate_dict_only payload)) as (_ & _ & ? & _).
  - intros Hno. rewrite (task_not_found _ _ _ _ _ Hok Hno). cbn [snd].
    destruct (get_applicant_spec app_id s Hok) as (data & s1 & r & Hpost & -> & _).
    by eapply read_post_collection.
  - intros Hin. rewrite (task_found _ _ _ _ _ Hok Hin). unfold void. cbn [snd].
    assert (store_ok (foldl (λ s c, run_call c s)
                            (services.get_applicant app_id s).2 cs)) as Hok2.
    { destruct (get_applicant_spec app_id s Hok)
        as (data & s1 & r & Hpost & Hrun & _).
      rewrite Hrun. cbn [snd].
      by apply run_calls_ok, (read_post_ok _ _ _ Hpost). }
    by destruct (update_applicant_frame app_id _ _ Hok2
                   (decision_only app_id)) as (_ & _ & ? & _).
Qed.

Lemma status_risk_only_witness :
  let py_format : string → Z → exn + string := λ _ _, inl TypeError in
  let payload := api.Build_ApplicantUpdate None (Some "High") in
  let cs := [CallCreate "Zed" "1A" "2026-01-05"] in
  let s := startup None in
  store_ok s ∧
  same_but_status_risk
    (collection s) (collection (api.patch_applicant 1001 payload s).2) ∧
  let s2 := foldl (λ s c, run_call c s) (services.get_applicant 1001 s).2 cs in
  let s' := (services.task py_format 1001 (others cs)
               "2026-01-05T10:00:00" s).2 in
  (1001%Z ∉ ids (collection s) → collection s' = collection s) ∧
  (1001%Z ∈ ids (collection s) →
     same_but_status_risk (collection s2) (collection s')).
Proof.
  intros py_format payload cs s.
  assert (store_ok s) as Hok
    by (apply (bool_decide_unpack _); vm_compute; exact I).
  split; [exact Hok|]. by apply status_risk_only.
Defined.

(** C8. In every run of the process from startup (store calls, the data
    file removed from outside), the first read that finds the data file
    absent writes exactly the five seed records, ids 1001 to 1005, to the
    file and returns that collection; and in any state, a read that finds the
    file returns exactly the collection the file holds and leaves the file as
    it is. *)
Theorem read_seeds_or_loads file es s0 :
  records_ok (default [] file) → never_seeded es (startup file) →
  let s := foldl (λ s e, run_event e s) (startup file) es in
  (DATA_FILE s = None →
     ∃ data s',
       services._read s = (inr data, s') ∧
       points_to (heap s') data seed_records ∧
       DATA_FILE s' = Some seed_records ∧
       length seed_records = 5 ∧
       ids seed_records = [1001; 1002; 1003; 1004; 1005]%Z) ∧
  (∀ ds, DATA_FILE s0 = Some ds →
     ∃ data s',
       services._read s0 = (inr data, s') ∧
       points_to (heap s') data ds ∧
       DATA_FILE s' = Some ds).
Proof.
  intros Hrec Hnever s. split.
  - intros Hnone.
    destruct (never_seeded_run es _ Hnever (startup_ok _ Hrec)
                (startup_intact _)) as [Hok Hs].
    fold s in Hok, Hs.
    destruct (read_spec s (proj1 Hok)) as (data & s' & Hread & Hpost).
    exists data, s'. split; [done|].
    destruct Hpost as (_ & Hf & Hp & _).
    assert (collection s = seed_records) as Hc.
    { unfold collection. rewrite Hnone. by apply seeds_intact_collection. }
    rewrite Hc in Hf, Hp. done.
  - intros ds Hds. eexists _, _. split.
    + unfold services._read.
      erewrite bind_ok by (unfold read_file; by rewrite Hds).
      apply json_load_spec.
    + split; [apply points_to_fresh|done].
Qed.

Lemma read_seeds_or_loads_witness :
  let file := Some (take 3 seed_records) in
  let es := [Call (CallDelete 1002); FileRemoved] in
  let s := foldl (λ s e, run_event e s) (startup file) es in
  let s0 := startup file in
  records_ok (default [] file) ∧ never_seeded es (startup file) ∧
  DATA_FILE s = None ∧ DATA_FILE s0 = file ∧
  (∃ data s',
     services._read s = (inr data, s') ∧
     points_to (heap s') data seed_records ∧
     DATA_FILE s' = Some seed_records ∧
     length seed_records = 5 ∧
     ids seed_records = [1001; 1002; 1003; 1004; 1005]%Z) ∧
  (∃ data s',
     services._read s0 = (inr data, s') ∧
     points_to (heap s') data (take 3 seed_records) ∧
     DATA_FILE s' = file).
Proof.
  intros file es s s0.
  assert (records_ok (default [] file)) as Hrec
    by (apply (bool_decide_unpack _); vm_compute; exact I).
  assert (never_seeded es (startup file)) as Hnever
    by (vm_compute; eauto).
  assert (DATA_FILE s = None) as Hnone by (vm_compute; reflexivity).
  destruct (read_seeds_or_loads file es s0 Hrec Hnever) as [Hseed Hload].
  split_and!; [exact Hrec|exact Hnever|exact Hnone|reflexivity|
               exact (Hseed Hnone)|exact (Hload _ eq_refl)].
Defined.

(** The seeding is from the [DEFAULTS] objects as they are: an update made
    while the file was absent works on those objects, so a later read that
    finds the file absent again writes the updated records. *)
Example reseed_after_update :
  let payload := api.Build_ApplicantUpdate (Some "Approved/Leased") None in
  let s := foldl (λ s e, run_event e s) (startup None)
             [Call (CallUpdate 1002 payload); FileRemoved] in
  DATA_FILE s = None ∧
  DATA_FILE (services._read s).2 ≠ Some seed_records.
Proof.
  split; [done|]. apply (bool_decide_unpack _). by vm_compute.
Qed.

(** * Further properties of the store *)

Lemma bind_err {A B} (c : M A) (f : A → M B) s e s' :
  c s = (inl e, s') → (c ≫= f) s = (inl e, s').
Proof. intros H. unfold mbind, M_bind. by rewrite H. Qed.


Lemma ids_take ds i : records_ok ds → ids (take i ds) = take i (ids ds).
Proof.
  intros Hok. revert i. induction Hok as [|d ds [n Hn] _ IH]; intros [|i];
    try done.
  cbn [take]. by rewrite !(ids_cons _ _ _ Hn), IH.
Qed.

Lemma ids_lookup_Some ds i d :
  records_ok ds → ds !! i = Some d → ids ds !! i = id_of d.
Proof.
  intros Hok. revert i. induction Hok as [|d0 ds [m Hm] _ IH]; intros [|i] Hi;
    try done; rewrite (ids_cons _ _ _ Hm); cbn in *.
  - by simplify_eq.
  - by apply IH.
Qed.

(** The first position of a value in a list is unique. *)
Lemma first_position_unique (l : list Z) x i j :
  l !! i = Some x → x ∉ take i l → l !! j = Some x → x ∉ take j l → i = j.
Proof.
  intros Hi Hni Hj Hnj.
  destruct (Nat.lt_trichotomy i j) as [Hlt|[->|Hlt]]; [|done|].
  - exfalso. apply Hnj. apply list_elem_of_lookup. exists i.
    by rewrite lookup_take_lt.
  - exfalso. apply Hni. apply list_elem_of_lookup. exists j.
    by rewrite lookup_take_lt.
Qed.

Lemma first_record_unique ds app_id i j d e :
  records_ok ds →
  ds !! i = Some d → id_of d = Some app_id → app_id ∉ ids (take i ds) →
  ds !! j = Some e → id_of e = Some app_id → app_id ∉ ids (take j ds) →
  i = j.
Proof.
  intros Hok Hi Hd Hni Hj He Hnj. rewrite ids_take in Hni, Hnj by done.
  eapply (first_position_unique (ids ds) app_id); try done.
  - by rewrite (ids_lookup_Some _ _ _ Hok Hi).
  - by rewrite (ids_lookup_Some _ _ _ Hok Hj).
Qed.

(** The search loop stops at the first record with the id. *)
Lemma get_loop_first app_id data ds s :
  points_to (heap s) data ds → records_ok ds → app_id ∈ ids ds →
  ∃ i a d, data !! i = Some a ∧ ds !! i = Some d ∧ id_of d = Some app_id ∧
           (app_id ∉ ids (take i ds)) ∧
           services.get_loop app_id data s = (inr (Some a), s).
Proof.
  induction 1 as [|a d data ds Ha _ IH]; intros Hok Hin.
  - by apply elem_of_nil in Hin.
  - apply Forall_cons in Hok as [[n Hn] Hok]. cbn [services.get_loop].
    rewrite (bind_ok _ _ _ _ _ (getitem_id _ _ _ _ Ha Hn)), py_eq_int.
    case_bool_decide as Heq.
    + subst n. exists 0, a, d. split_and!; try done. apply not_elem_of_nil.
    + rewrite (ids_cons _ _ _ Hn) in Hin.
      apply elem_of_cons in Hin as [->|Hin]; [done|].
      destruct (IH Hok Hin) as (i & a' & d' & ? & ? & ? & Hfst & Hrun).
      exists (S i), a', d'. split_and!; try done.
      cbn [take]. rewrite (ids_cons _ _ _ Hn), not_elem_of_cons.
      split; [congruence|done].
Qed.

Lemma get_applicant_found app_id s :
  store_ok s → app_id ∈ ids (collection s) →
  ∃ data s1 i a d,
    read_post s data s1 ∧
    collection s !! i = Some d ∧ id_of d = Some app_id ∧
    (app_id ∉ ids (take i (collection s))) ∧
    heap s1 !! a = Some d ∧
    services.get_applicant app_id s = (inr (Some a), s1).
Proof.
  intros [Hrefs Hrec] Hin.
  destruct (read_spec s Hrefs) as (data & s1 & Hread & Hpost).
  pose proof Hpost as (_ & _ & Hp & _).
  destruct (get_loop_first app_id data (collection s) s1 Hp Hrec Hin)
    as (i & a & d & Hia & Hid & Hn & Hfst & Hrun).
  exists data, s1, i, a, d. split_and!; try done.
  - destruct (Forall2_lookup_l _ _ _ _ _ Hp Hia) as (d0 & ? & ?). congruence.
  - unfold services.get_applicant. by rewrite (bind_ok _ _ _ _ _ Hread).
Qed.

(** X1. [get_applicant] on an id of the collection returns the first record
    with that id, as it is stored, and leaves the collection as it was; the
    handler returns the same object. *)
Theorem get_applicant_first app_id s :
  store_ok s → app_id ∈ ids (collection s) →
  ∃ i a d s',
    services.get_applicant app_id s = (inr (Some a), s') ∧
    api.get_applicant app_id s = (inr a, s') ∧
    collection s !! i = Some d ∧ id_of d = Some app_id ∧
    (app_id ∉ ids (take i (collection s))) ∧
    heap s' !! a = Some d ∧
    collection s' = collection s.
Proof.
  intros Hok Hin.
  destruct (get_applicant_found app_id s Hok Hin)
    as (data & s1 & i & a & d & Hpost & Hid & Hn & Hfst & Ha & Hrun).
  exists i, a, d, s1. split_and!; try done.
  - unfold api.get_applicant. rewrite (bind_ok _ _ _ _ _ Hrun).
    by apply (or_404_found _ d), (id_of_nonempty _ app_id).
  - by eapply read_post_collection.
Qed.

Lemma get_applicant_first_witness :
  store_ok (startup None) ∧ 1003%Z ∈ ids (collection (startup None)) ∧
  ∃ i a d s',
    services.get_applicant 1003 (startup None) = (inr (Some a), s') ∧
    api.get_applicant 1003 (startup None) = (inr a, s') ∧
    collection (startup None) !! i = Some d ∧ id_of d = Some 1003%Z ∧
    (1003%Z ∉ ids (take i (collection (startup None)))) ∧
    heap s' !! a = Some d ∧
    collection s' = collection (startup None).
Proof.
  assert (store_ok (startup None)) as Hok
    by (apply (bool_decide_unpack _); vm_compute; exact I).
  assert (1003%Z ∈ ids (collection (startup None))) as Hin
    by (apply (bool_decide_unpack _); vm_compute; exact I).
  split_and!; [exact Hok|exact Hin|]. by apply get_applicant_first.
Defined.

Lemma update_applicant_found app_id updates s :
  store_ok s → app_id ∈ ids (collection s) →
  ∃ data s1 i a d,
    read_post s data s1 ∧ data !! i = Some a ∧ heap s1 !! a = Some d ∧
    collection s !! i = Some d ∧ id_of d = Some app_id ∧
    (app_id ∉ ids (take i (collection s))) ∧
    services.update_applicant app_id updates s =
      (inr (Some a),
       State (<[a := apply_items d (map_to_list updates)]> (heap s1))
             (DEFAULTS s)
             (Some (<[i := apply_items d (map_to_list updates)]>
                      (collection s)))).
Proof.
  intros Hok Hin.
  destruct (update_applicant_spec app_id updates s Hok)
    as (data & s1 & Hpost & [[Hno _]|(i & a & d & Hia & Hid & Hn & Hfst & Hrun)]);
    [done|].
  exists data, s1, i, a, d. split_and!; try done.
  destruct Hpost as (_ & _ & Hp & _).
  destruct (Forall2_lookup_l _ _ _ _ _ Hp Hia) as (d0 & ? & ?). congruence.
Qed.

Lemma update_applicant_missing app_id updates s :
  store_ok s → app_id ∉ ids (collection s) →
  ∃ data s1, read_post s data s1 ∧
             services.update_applicant app_id updates s = (inr None, s1).
Proof.
  intros Hok Hno.
  destruct (update_applicant_spec app_id updates s Hok)
    as (data & s1 & Hpost & [[_ Hrun]|(i & a & d & _ & Hid & Hn & _)]).
  - by exists data, s1.
  - exfalso. apply Hno, elem_of_ids. exists d. split; [|done].
    by eapply list_elem_of_lookup_2.
Qed.

Lemma filter_ids_none app_id ds :
  app_id ∉ ids ds → filter (λ d, id_of d ≠ Some app_id) ds = ds.
Proof.
  intros Hno. induction ds as [|d ds IH]; [done|].
  rewrite ids_cons_match in Hno. destruct (id_of d) as [n|] eqn:Hn.
  - apply not_elem_of_cons in Hno as [Hne Hno].
    rewrite filter_cons_True by congruence. by rewrite IH.
  - rewrite filter_cons_True by (by rewrite Hn). by rewrite IH.
Qed.

Lemma merged_twice d updates d' d'' :
  merged d updates d' → merged d' updates d'' → d'' = d'.
Proof.
  intros H1 H2. apply map_eq. intros k. rewrite (H2 k), (H1 k).
  destruct (updates !! k) as [v|]; [|done]. by case_bool_decide.
Qed.

(** X2. A record created through the handler can be read back: the created
    object has the given name, the given unit or [""] when none was given,
    the date of the call and the defaults Submitted/Manual, Pending, N/A,
    N/A, and a get on its id returns an object with exactly this content. *)
Theorem create_then_get payload today s :
  store_ok s →
  ∃ a s1 new_id a' s2,
    let new := applicant_dict (VInt new_id) (api.name payload)
                 (default "" (api.unit_ payload)) today
                 "Submitted/Manual" "Pending" "N/A" "N/A" in
    api.create_applicant payload today s = (inr a, s1) ∧
    heap s1 !! a = Some new ∧
    api.get_applicant new_id s1 = (inr a', s2) ∧
    heap s2 !! a' = Some new.
Proof.
  intros Hok. unfold api.create_applicant.
  set (name := api.name payload). set (unit_ := default "" (api.unit_ payload)).
  destruct (create_applicant_spec name unit_ today s Hok)
    as (data & s0 & Hpost & Hrun). cbn zeta in Hrun.
  destruct (create_applicant_ok name unit_ today s Hok) as (Hok1 & _ & Hids).
  cbn zeta in Hok1, Hids. rewrite Hrun in Hok1, Hids. cbn [snd] in Hok1, Hids.
  set (new_id := next_id (ids (collection s))) in *.
  set (new := applicant_dict (VInt new_id) name unit_ today
                "Submitted/Manual" "Pending" "N/A" "N/A") in *.
  set (s1 := State (heap s0 ++ [new]) (DEFAULTS s) (Some (collection s ++ [new])))
    in *.
  assert (new_id ∈ ids (collection s1)) as Hin.
  { rewrite Hids. apply elem_of_app. right. apply list_elem_of_here. }
  destruct (get_applicant_found new_id s1 Hok1 Hin)
    as (data1 & s2 & i & a' & d & Hpost1 & Hid & Hn & Hfst & Ha' & Hget).
  assert (d = new) as ->.
  { change (collection s1) with (collection s ++ [new]) in Hid.
    apply lookup_app_Some in Hid as [Hid|[_ Hid]].
    - exfalso. pose proof (next_id_above (ids (collection s))) as Habove.
      rewrite Forall_forall in Habove.
      assert (new_id ∈ ids (collection s)) as Hold.
      { apply elem_of_ids. exists d. split; [|done].
        by eapply list_elem_of_lookup_2. }
      specialize (Habove _ Hold). fold new_id in Habove. lia.
    - apply list_lookup_singleton_Some in Hid as [_ ->]. done. }
  exists (length (heap s0)), s1, new_id, a', s2. cbn zeta. split_and!.
  - exact Hrun.
  - cbn. by rewrite list_lookup_middle.
  - unfold api.get_applicant. rewrite (bind_ok _ _ _ _ _ Hget).
    by apply (or_404_found _ new), (id_of_nonempty _ new_id).
  - done.
Qed.

Lemma create_then_get_witness :
  store_ok (startup (Some [])) ∧
  ∃ a s1 new_id a' s2,
    let payload := api.Build_ApplicantCreate "Zed" None in
    let new := applicant_dict (VInt new_id) "Zed" "" "2026-01-05"
                 "Submitted/Manual" "Pending" "N/A" "N/A" in
    api.create_applicant payload "2026-01-05" (startup (Some []))
      = (inr a, s1) ∧
    heap s1 !! a = Some new ∧
    api.get_applicant new_id s1 = (inr a', s2) ∧
    heap s2 !! a' = Some new.
Proof.
  assert (store_ok (startup (Some []))) as Hok
    by (apply (bool_decide_unpack _); vm_compute; exact I).
  split; [exact Hok|].
  exact (create_then_get (api.Build_ApplicantCreate "Zed" None) "2026-01-05"
           _ Hok).
Defined.

(** X3. [delete_applicant] removes every record with the id, not only the
    first, keeps the other records in their order, and returns [True]
    exactly when there was such a record. *)
Theorem delete_applicant_all app_id s :
  store_ok s →
  ∃ b s',
    services.delete_applicant app_id s = (inr b, s') ∧
    (b = true ↔ app_id ∈ ids (collection s)) ∧
    collection s' = filter (λ d, id_of d ≠ Some app_id) (collection s) ∧
    (app_id ∉ ids (collection s')).
Proof.
  intros Hok.
  assert (app_id ∉ ids (filter (λ d, id_of d ≠ Some app_id) (collection s)))
    as Hgone.
  { rewrite filter_ids. by intros [? _]%list_elem_of_filter. }
  destruct (delete_applicant_spec app_id s Hok)
    as (data & s1 & Hpost & [[Hno Hrun]|[Hin Hrun]]); rewrite Hrun.
  - exists false, s1. rewrite (read_post_collection _ _ _ Hpost).
    rewrite (filter_ids_none _ _ Hno). split_and!; done.
  - eexists true, _. split_and!; done.
Qed.

Lemma delete_applicant_all_witness :
  let twin := applicant_dict (VInt 1001) "Twin" "9Z" "2026-01-05"
                "Denied" "High" "N/A" "N/A" in
  let s := startup (Some (seed_records ++ [twin])) in
  store_ok s ∧
  ∃ b s',
    services.delete_applicant 1001 s = (inr b, s') ∧
    (b = true ↔ 1001%Z ∈ ids (collection s)) ∧
    collection s' = filter (λ d, id_of d ≠ Some 1001%Z) (collection s) ∧
    (1001%Z ∉ ids (collection s')).
Proof.
  intros twin s.
  assert (store_ok s) as Hok
    by (apply (bool_decide_unpack _); vm_compute; exact I).
  split; [exact Hok|]. by apply delete_applicant_all.
Defined.

(** X4. Deleting the same id a second time finds nothing: the service
    returns [False], the handler answers 404, and the collection stays as
    the first delete left it. *)
Theorem delete_twice app_id s :
  store_ok s →
  ∃ s2,
    services.delete_applicant app_id (services.delete_applicant app_id s).2
      = (inr false, s2) ∧
    api.delete_applicant app_id (services.delete_applicant app_id s).2
      = (inl not_found, s2) ∧
    collection s2 = collection (services.delete_applicant app_id s).2.
Proof.
  intros Hok.
  destruct (delete_applicant_ok app_id s Hok) as (Hok1 & _ & Hids).
  cbn zeta in Hok1, Hids.
  remember (services.delete_applicant app_id s).2 as s1 eqn:Hs1.
  assert (app_id ∉ ids (collection s1)) as Hno.
  { rewrite Hids. by intros [? _]%list_elem_of_filter. }
  destruct (delete_applicant_spec app_id s1 Hok1)
    as (data & s2 & Hpost & [[_ Hrun]|[Hin _]]); [|done].
  exists s2. split_and!.
  - done.
  - unfold api.delete_applicant. by rewrite (bind_ok _ _ _ _ _ Hrun).
  - by eapply read_post_collection.
Qed.

Lemma delete_twice_witness :
  store_ok (startup None) ∧
  ∃ s2,
    services.delete_applicant 1002
      (services.delete_applicant 1002 (startup None)).2 = (inr false, s2) ∧
    api.delete_applicant 1002
      (services.delete_applicant 1002 (startup None)).2
      = (inl not_found, s2) ∧
    collection s2
      = collection (services.delete_applicant 1002 (startup None)).2.
Proof.
  assert (store_ok (startup None)) as Hok
    by (apply (bool_decide_unpack _); vm_compute; exact I).
  split; [exact Hok|]. by apply delete_twice.
Defined.

(** X5. PATCH is idempotent: sending the same payload for the same id a
    second time leaves the collection as the first request left it, and the
    second request is answered 404 exactly when the first one was. *)
Theorem patch_twice app_id payload s :
  store_ok s →
  collection (api.patch_applicant app_id payload
                (api.patch_applicant app_id payload s).2).2
    = collection (api.patch_applicant app_id payload s).2 ∧
  ((api.patch_applicant app_id payload
      (api.patch_applicant app_id payload s).2).1 = inl not_found ↔
   (api.patch_applicant app_id payload s).1 = inl not_found).
Proof.
  intros Hok.
  pose proof (ApplicantUpdate_dict_only payload) as Hu.
  destruct (update_applicant_frame app_id _ s Hok Hu) as (Hok1 & _ & _ & Hids).
  cbn zeta in Hok1, Hids.
  split.
  - rewrite (patch_applicant_state app_id payload
               (api.patch_applicant app_id payload s).2).
    rewrite (patch_applicant_state app_id payload s).
    remember (api.ApplicantUpdate_dict payload) as u eqn:Hequ.
    remember (services.update_applicant app_id u s).2 as s1 eqn:Hs1.
    destruct (decide (app_id ∈ ids (collection s))) as [Hin|Hno].
    + destruct (update_applicant_found app_id u s Hok Hin)
        as (data & s0 & i & a & d & Hpost & Hia & Ha & Hid & Hn & Hfst & Hrun).
      remember (apply_items d (map_to_list u)) as d' eqn:Hd'.
      pose proof (lookup_lt_Some _ _ _ Hid) as Hlt.
      assert (collection s1 = <[i := d']> (collection s)) as Hc1
        by (rewrite Hs1, Hrun; reflexivity).
      assert (merged d u d') as Hm by (rewrite Hd'; apply apply_items_merged).
      assert (id_of d' = Some app_id) as Hn'
        by (rewrite (merged_id _ _ _ Hm Hu); exact Hn).
      assert (app_id ∈ ids (collection s1)) as Hin1
        by (rewrite Hids; exact Hin).
      destruct (update_applicant_found app_id u s1 Hok1 Hin1)
        as (data1 & s01 & j & a1 & e & Hpost1 & _ & _ & Hje & Hne & Hfst1 & Hrun1).
      assert (collection s1 !! i = Some d') as Hid'
        by (rewrite Hc1; apply list_lookup_insert_eq; exact Hlt).
      assert (app_id ∉ ids (take i (collection s1))) as Hfst'
        by (rewrite Hc1, take_insert_ge by lia; exact Hfst).
      assert (i = j) as <-
        by exact (first_record_unique (collection s1) app_id i j d' e
                    (proj2 Hok1) Hid' Hn' Hfst' Hje Hne Hfst1).
      assert (e = d') as -> by congruence.
      rewrite Hrun1. cbn [snd]. unfold collection at 1. cbn [DATA_FILE].
      rewrite (merged_twice d u d' _ Hm (apply_items_merged d' u)).
      rewrite Hc1. apply list_insert_insert_eq.
    + destruct (update_applicant_missing app_id u s Hok Hno)
        as (data & s0 & Hpost & Hrun).
      assert (collection s1 = collection s) as Hc1.
      { rewrite Hs1, Hrun. exact (read_post_collection _ _ _ Hpost). }
      assert (app_id ∉ ids (collection s1)) as Hno1
        by (rewrite Hc1; exact Hno).
      destruct (update_applicant_missing app_id u s1 Hok1 Hno1)
        as (data1 & s01 & Hpost1 & Hrun1).
      rewrite Hrun1. exact (read_post_collection _ _ _ Hpost1).
  - pose proof (patch_applicant_state app_id payload s) as Hst.
    remember (api.patch_applicant app_id payload s).2 as s1 eqn:Hs1.
    assert (store_ok s1) as Hok1' by (rewrite Hst; exact Hok1).
    assert (ids (collection s1) = ids (collection s)) as Hsame
      by (rewrite Hst; exact Hids).
    destruct (api_patch_applicant_spec app_id payload s Hok) as [Hp0 Hp1].
    destruct (api_patch_applicant_spec app_id payload s1 Hok1') as [Hq0 Hq1].
    rewrite Hsame in Hq0, Hq1.
    rewrite (not_found_cases _ (app_id ∈ ids (collection s)) Hq0 Hq1).
    rewrite (not_found_cases _ (app_id ∈ ids (collection s)) Hp0 Hp1).
    reflexivity.
Qed.

Lemma patch_twice_witness :
  let payload := api.Build_ApplicantUpdate (Some "Approved/Leased") None in
  store_ok (startup None) ∧
  collection (api.patch_applicant 1001 payload
                (api.patch_applicant 1001 payload (startup None)).2).2
    = collection (api.patch_applicant 1001 payload (startup None)).2 ∧
  ((api.patch_applicant 1001 payload
      (api.patch_applicant 1001 payload (startup None)).2).1
     = inl not_found ↔
   (api.patch_applicant 1001 payload (startup None)).1 = inl not_found).
Proof.
  intros payload.
  assert (store_ok (startup None)) as Hok
    by (apply (bool_decide_unpack _); vm_compute; exact I).
  split; [exact Hok|]. by apply patch_twice.
Defined.

(** X6. A PATCH whose payload supplies neither [status] nor [risk] changes
    nothing: on an id of the collection it answers with the stored record
    and the collection stays as it was. *)
Theorem patch_nothing app_id s :
  store_ok s → app_id ∈ ids (collection s) →
  ∃ a d s',
    api.patch_applicant app_id (api.Build_ApplicantUpdate None None) s
      = (inr a, s') ∧
    heap s' !! a = Some d ∧ d ∈ collection s ∧ id_of d = Some app_id ∧
    collection s' = collection s.
Proof.
  intros Hok Hin.
  set (u := api.ApplicantUpdate_dict (api.Build_ApplicantUpdate None None)).
  destruct (update_applicant_found app_id u s Hok Hin)
    as (data & s0 & i & a & d & Hpost & Hia & Ha & Hid & Hn & Hfst & Hrun).
  assert (apply_items d (map_to_list u) = d) as Hd.
  { apply map_eq. intros k. rewrite (apply_items_merged d u k).
    destruct (decide (k = "status")) as [->|Hs]; [reflexivity|].
    destruct (decide (k = "risk")) as [->|Hr]; [reflexivity|].
    pose proof (ApplicantUpdate_dict_only
                  (api.Build_ApplicantUpdate None None) k Hs Hr) as Hnone.
    fold u in Hnone. by rewrite Hnone. }
  rewrite Hd in Hrun. exists a, d. eexists. split_and!.
  - unfold api.patch_applicant. fold u. rewrite (bind_ok _ _ _ _ _ Hrun).
    apply (or_404_found _ d); [|by apply (id_of_nonempty _ app_id)].
    cbn. apply list_lookup_insert_eq. by eapply lookup_lt_Some.
  - cbn. apply list_lookup_insert_eq. by eapply lookup_lt_Some.
  - by eapply list_elem_of_lookup_2.
  - done.
  - unfold collection at 1. cbn. by apply list_insert_id.
Qed.

Lemma patch_nothing_witness :
  store_ok (startup None) ∧ 1005%Z ∈ ids (collection (startup None)) ∧
  ∃ a d s',
    api.patch_applicant 1005 (api.Build_ApplicantUpdate None None)
      (startup None) = (inr a, s') ∧
    heap s' !! a = Some d ∧ d ∈ collection (startup None) ∧
    id_of d = Some 1005%Z ∧
    collection s' = collection (startup None).
Proof.
  assert (store_ok (startup None)) as Hok
    by (apply (bool_decide_unpack _); vm_compute; exact I).
  assert (1005%Z ∈ ids (collection (startup None))) as Hin
    by (apply (bool_decide_unpack _); vm_compute; exact I).
  split_and!; [exact Hok|exact Hin|]. by apply patch_nothing.
Defined.

(** X7. Ids are not kept for deleted records: when the record with the
    greatest id is deleted and other records remain, the next create hands
    out an id that is not above the deleted one, and the deleted id itself
    when its predecessor is still in the collection. *)
Theorem id_reused_after_delete app_id name unit_ today s :
  store_ok s → app_id ∈ ids (collection s) →
  Forall (λ n, n ≤ app_id)%Z (ids (collection s)) →
  filter (λ n, n ≠ app_id) (ids (collection s)) ≠ [] →
  ∃ a new new_id s',
    services.create_applicant name unit_ today
      (services.delete_applicant app_id s).2 = (inr a, s') ∧
    heap s' !! a = Some new ∧ new !! "id" = Some (VInt new_id) ∧
    (new_id ≤ app_id)%Z ∧
    ((app_id - 1)%Z ∈ ids (collection s) → new_id = app_id).
Proof.
  intros Hok Hin Hmax Hrest.
  destruct (delete_applicant_ok app_id s Hok) as (Hok1 & _ & Hids).
  cbn zeta in Hok1, Hids.
  remember (services.delete_applicant app_id s).2 as s1 eqn:Hs1.
  destruct (create_applicant_spec name unit_ today s1 Hok1)
    as (data & s0 & Hpost & Hrun). cbn zeta in Hrun.
  set (l := ids (collection s)) in *.
  assert (Forall (λ n, n < app_id)%Z (ids (collection s1))) as Hbelow.
  { rewrite Hids. apply Forall_forall. intros n [Hne Hn]%list_elem_of_filter.
    rewrite Forall_forall in Hmax. specialize (Hmax n Hn). cbn in Hmax. lia. }
  assert (ids (collection s1) ≠ []) as Hne1 by by rewrite Hids.
  pose proof (next_id_tight _ Hne1) as Htight.
  pose proof (next_id_above (ids (collection s1))) as Habove.
  eexists _, _, (next_id (ids (collection s1))), _.
  split; [exact Hrun|]. split_and!.
  - cbn. by rewrite list_lookup_middle.
  - done.
  - rewrite Forall_forall in Hbelow. specialize (Hbelow _ Htight).
    cbn in Hbelow. lia.
  - intros Hpred.
    assert ((app_id - 1)%Z ∈ ids (collection s1)) as Hpred1.
    { rewrite Hids. apply list_elem_of_filter. split; [lia|done]. }
    rewrite Forall_forall in Hbelow, Habove.
    specialize (Hbelow _ Htight). specialize (Habove _ Hpred1).
    cbn in Hbelow, Habove. lia.
Qed.

Lemma id_reused_after_delete_witness :
  let s := startup None in
  store_ok s ∧ 1005%Z ∈ ids (collection s) ∧
  Forall (λ n, n ≤ 1005)%Z (ids (collection s)) ∧
  filter (λ n, n ≠ 1005%Z) (ids (collection s)) ≠ [] ∧
  ∃ a new new_id s',
    services.create_applicant "Zed" "1A" "2026-01-05"
      (services.delete_applicant 1005 s).2 = (inr a, s') ∧
    heap s' !! a = Some new ∧ new !! "id" = Some (VInt new_id) ∧
    (new_id ≤ 1005)%Z ∧
    ((1005 - 1)%Z ∈ ids (collection s) → new_id = 1005%Z).
Proof.
  intros s.
  assert (store_ok s) as Hok
    by (apply (bool_decide_unpack _); vm_compute; exact I).
  assert (1005%Z ∈ ids (collection s)) as Hin
    by (apply (bool_decide_unpack _); vm_compute; exact I).
  assert (Forall (λ n, n ≤ 1005)%Z (ids (collection s))) as Hmax
    by (apply (bool_decide_unpack _); vm_compute; exact I).
  assert (filter (λ n, n ≠ 1005%Z) (ids (collection s)) ≠ []) as Hrest
    by (apply (bool_decide_unpack _); vm_compute; exact I).
  split_and!; [exact Hok|exact Hin|exact Hmax|exact Hrest|].
  by apply id_reused_after_delete.
Defined.

(** ** Collections with a malformed record *)

Lemma read_file_present s ds :
  DATA_FILE s = Some ds →
  services._read s =
    (inr (seq (length (heap s)) (length ds)), set_heap (heap s ++ ds) s).
Proof.
  intros Hds. unfold services._read.
  erewrite bind_ok by (unfold read_file; by rewrite Hds).
  apply json_load_spec.
Qed.

Lemma delete_filter_KeyError app_id data ds s :
  points_to (heap s) data ds → (∃ d, d ∈ ds ∧ d !! "id" = None) →
  services.delete_filter app_id data s = (inl KeyError, s).
Proof.
  induction 1 as [|a d data ds Ha Hp IH]; intros (d0 & Hin & Hd0).
  - by apply elem_of_nil in Hin.
  - cbn [services.delete_filter].
    destruct (d !! "id") as [v|] eqn:Hv.
    + rewrite (bind_ok _ _ _ _ _ (getitem_ok _ _ _ _ _ Ha Hv)).
      apply elem_of_cons in Hin as [->|Hin]; [congruence|].
      apply bind_err, IH. by exists d0.
    + apply bind_err. unfold getitem.
      rewrite (bind_ok _ _ _ _ _ (deref_ok _ _ _ Ha)). by rewrite Hv.
Qed.

(** X8. If some record of the data file has no [id] key, [delete_applicant]
    raises [KeyError] for every id, before anything is written: the file
    keeps its content.  The handler lets the exception through. *)
Theorem delete_malformed app_id ds s :
  DATA_FILE s = Some ds → (∃ d, d ∈ ds ∧ d !! "id" = None) →
  ∃ s',
    services.delete_applicant app_id s = (inl KeyError, s') ∧
    api.delete_applicant app_id s = (inl KeyError, s') ∧
    DATA_FILE s' = Some ds.
Proof.
  intros Hds Hbad.
  pose proof (read_file_present s ds Hds) as Hread.
  set (s1 := set_heap (heap s ++ ds) s) in *.
  assert (services.delete_applicant app_id s = (inl KeyError, s1)) as Hrun.
  { unfold services.delete_applicant. rewrite (bind_ok _ _ _ _ _ Hread).
    apply bind_err, (delete_filter_KeyError _ _ ds); [|done].
    apply points_to_fresh. }
  exists s1. split_and!; [done| |done].
  unfold api.delete_applicant. by apply bind_err.
Qed.

Lemma delete_malformed_witness :
  let ds := seed_records ++ [ {["name" := VStr "No Id"]} ] in
  DATA_FILE (startup (Some ds)) = Some ds ∧
  (∃ d, d ∈ ds ∧ d !! "id" = None) ∧
  ∃ s',
    services.delete_applicant 1001 (startup (Some ds)) = (inl KeyError, s') ∧
    api.delete_applicant 1001 (startup (Some ds)) = (inl KeyError, s') ∧
    DATA_FILE s' = Some ds.
Proof.
  intros ds.
  assert (∃ d : dict, d ∈ ds ∧ d !! "id" = None) as Hbad.
  { exists {["name" := VStr "No Id"]}. split; [|reflexivity].
    apply elem_of_app. right. apply list_elem_of_here. }
  split_and!; [reflexivity|exact Hbad|].
  by apply delete_malformed.
Defined.

(** The search loop does not look past the record it returns. *)
Lemma get_loop_prefix app_id pre dpre a d rest s :
  points_to (heap s) pre dpre → records_ok dpre → app_id ∉ ids dpre →
  heap s !! a = Some d → id_of d = Some app_id →
  services.get_loop app_id (pre ++ a :: rest) s = (inr (Some a), s).
Proof.
  intros Hp. induction Hp as [|b e pre dpre Hb _ IH]; intros Hok Hno Ha Hn.
  - cbn [app services.get_loop].
    rewrite (bind_ok _ _ _ _ _ (getitem_id _ _ _ _ Ha Hn)), py_eq_int.
    by rewrite bool_decide_eq_true_2.
  - apply Forall_cons in Hok as [[m Hm] Hok].
    rewrite (ids_cons _ _ _ Hm), not_elem_of_cons in Hno.
    destruct Hno as [Hne Hno].
    change ((b :: pre) ++ a :: rest) with (b :: (pre ++ a :: rest)).
    cbn [services.get_loop].
    rewrite (bind_ok _ _ _ _ _ (getitem_id _ _ _ _ Hb Hm)), py_eq_int.
    rewrite bool_decide_eq_false_2 by congruence. by apply IH.
Qed.

(** X10. [get_applicant] stops at the first record with the id: it returns
    that record whatever follows it in the file, also records without an
    [id], on which [delete_applicant] raises. *)
Theorem get_before_malformed app_id dpre d drest s :
  DATA_FILE s = Some (dpre ++ d :: drest) →
  records_ok dpre → app_id ∉ ids dpre → id_of d = Some app_id →
  ∃ a s',
    services.get_applicant app_id s = (inr (Some a), s') ∧
    heap s' !! a = Some d ∧
    DATA_FILE s' = Some (dpre ++ d :: drest).
Proof.
  intros Hds Hok Hno Hn.
  pose proof (read_file_present s _ Hds) as Hread.
  set (s1 := set_heap (heap s ++ dpre ++ d :: drest) s) in *.
  pose proof (points_to_fresh (heap s) (dpre ++ d :: drest)) as Hp.
  rewrite length_app, seq_app in Hp. cbn [length seq] in Hp.
  apply Forall2_app_inv in Hp as [Hpre Hrest];
    [|by rewrite length_seq].
  apply Forall2_cons in Hrest as [Ha _].
  exists (length (heap s) + length dpre), s1. split_and!; [|done|done].
  unfold services.get_applicant. rewrite (bind_ok _ _ _ _ _ Hread).
  rewrite length_app, seq_app. cbn [length seq].
  by apply (get_loop_prefix app_id _ dpre _ d).
Qed.

Lemma get_before_malformed_witness :
  let dpre := take 2 seed_records in
  let d := applicant_dict (VInt 7) "Zed" "1A" "2026-01-05"
             "Submitted/Manual" "Pending" "N/A" "N/A" in
  let drest : list dict := [ {["name" := VStr "No Id"]} ] in
  let s := startup (Some (dpre ++ d :: drest)) in
  DATA_FILE s = Some (dpre ++ d :: drest) ∧
  records_ok dpre ∧ (7%Z ∉ ids dpre) ∧ id_of d = Some 7%Z ∧
  ∃ a s',
    services.get_applicant 7 s = (inr (Some a), s') ∧
    heap s' !! a = Some d ∧
    DATA_FILE s' = Some (dpre ++ d :: drest).
Proof.
  intros dpre d drest s.
  assert (records_ok dpre) as Hok
    by (apply (bool_decide_unpack _); vm_compute; exact I).
  assert (7%Z ∉ ids dpre) as Hno
    by (apply (bool_decide_unpack _); vm_compute; exact I).
  split_and!; [reflexivity|exact Hok|exact Hno|reflexivity|].
  by apply get_before_malformed.
Defined.





(** ** Shared and fresh objects *)



Lemma seed_objects_keep s s' :
  refs_ok s → DEFAULTS s' = DEFAULTS s →
  take (length (heap s)) (heap s') = heap s →
  seed_objects s' = seed_objects s.
Proof.
  intros [Hlive _] HD Ht. unfold seed_objects. rewrite HD.
  apply list_fmap_ext. intros j a Hj.
  assert (a < length (heap s)) as Hlt.
  { rewrite Forall_forall in Hlive. apply Hlive.
    by eapply list_elem_of_lookup_2. }
  rewrite <- (lookup_total_take_lt (heap s') (length (heap s)) a Hlt).
  by rewrite Ht.
Qed.

(** X12. A call that finds the data file works on fresh objects only: no
    object that existed before the call is changed, in particular none of the
    [DEFAULTS] objects. *)
Theorem call_with_file_keeps_objects c s :
  store_ok s → is_Some (DATA_FILE s) →
  take (length (heap s)) (heap (run_call c s)) = heap s ∧
  DEFAULTS (run_call c s) = DEFAULTS s ∧
  seed_objects (run_call c s) = seed_objects s.
Proof.
  intros Hok [ds Hds].
  assert (take (length (heap s)) (heap (run_call c s)) = heap s) as Ht.
  { assert (∀ data s1, read_post s data s1 →
                       take (length (heap s)) (heap s1) = heap s) as Hread.
    { intros data s1 Hpost. destruct (read_post_heap _ _ _ Hpost) as [h' ->].
      apply take_app_length. }
    destruct c as [|app_id|name unit_ today|app_id payload|app_id]; cbn.
    - destruct (list_applicants_spec s Hok) as (data & s1 & -> & Hpost).
      by eapply Hread.
    - destruct (get_applicant_spec app_id s Hok)
        as (data & s1 & r & Hpost & -> & _). by eapply Hread.
    - destruct (create_applicant_spec name unit_ today s Hok)
        as (data & s1 & Hpost & Hrun). cbn zeta in Hrun. rewrite Hrun.
      cbn [snd heap]. destruct (read_post_heap _ _ _ Hpost) as [h' ->].
      rewrite <- app_assoc. apply take_app_length.
    - destruct (update_applicant_spec app_id (api.ApplicantUpdate_dict payload)
                  s Hok)
        as (data & s1 & Hpost & [[_ Hrun]|(i & a & d & Hia & _ & _ & _ & Hrun)]).
      + rewrite Hrun. by eapply Hread.
      + cbn zeta in Hrun. rewrite Hrun. cbn [snd heap].
        rewrite take_insert_ge; [by eapply Hread|].
        destruct Hpost as (_ & _ & _ & _ & _ & Hsome).
        destruct (Hsome _ Hds) as [-> _].
        apply lookup_seq in Hia as [-> _]. lia.
    - destruct (delete_applicant_spec app_id s Hok)
        as (data & s1 & Hpost & [[_ Hrun]|[_ Hrun]]); rewrite Hrun;
        exact (Hread _ _ Hpost). }
  pose proof (run_call_DEFAULTS c s Hok) as HD.
  split_and!; [done|done|]. apply seed_objects_keep; [apply Hok|done..].
Qed.

Lemma call_with_file_keeps_objects_witness :
  let c := CallUpdate 1002 (api.Build_ApplicantUpdate (Some "Denied") None) in
  let s := startup (Some seed_records) in
  store_ok s ∧ is_Some (DATA_FILE s) ∧
  take (length (heap s)) (heap (run_call c s)) = heap s ∧
  DEFAULTS (run_call c s) = DEFAULTS s ∧
  seed_objects (run_call c s) = seed_objects s.
Proof.
  intros c s.
  assert (store_ok s) as Hok
    by (apply (bool_decide_unpack _); vm_compute; exact I).
  assert (is_Some (DATA_FILE s)) as Hfile by (by eexists).
  split_and!; [exact Hok|exact Hfile|..];
    by apply call_with_file_keeps_objects.
Defined.

(** ** The response model is kept *)

Lemma ApplicantUpdate_dict_str payload :
  str_or_none (api.ApplicantUpdate_dict payload).
Proof.
  intros k v Hk. unfold api.ApplicantUpdate_dict in Hk.
  destruct payload as [st rk]. cbn in Hk.
  apply lookup_insert_Some in Hk as [[_ <-]|[_ Hk]].
  { destruct st; cbn; eauto. }
  apply lookup_insert_Some in Hk as [[_ <-]|[_ Hk]].
  { destruct rk; cbn; eauto. }
  by rewrite lookup_empty in Hk.
Qed.

Lemma decision_str app_id : str_or_none (decision app_id).
Proof.
  intros k v Hk. unfold decision in Hk.
  apply lookup_insert_Some in Hk as [[_ <-]|[_ Hk]]; [eauto|].
  apply lookup_insert_Some in Hk as [[_ <-]|[_ Hk]]; [eauto|].
  by rewrite lookup_empty in Hk.
Qed.

Lemma merged_is_str d u d' k :
  merged d u d' → str_or_none u → is_str (d !! k) → is_str (d' !! k).
Proof.
  intros Hm Hu Hk. rewrite (Hm k). destruct (u !! k) as [v|] eqn:Hv; [|done].
  destruct (Hu k v Hv) as [->|[x ->]]; done.
Qed.

Lemma merged_response_fields d u d' :
  merged d u d' → only_status_risk u → str_or_none u →
  has_response_fields d → has_response_fields d'.
Proof.
  intros Hm Ho Hu (Hid & ? & ? & ? & ? & ? & ? & ?).
  split_and!; try by eapply merged_is_str.
  by rewrite (merged_frame _ _ _ "id" Hm) by by apply Ho.
Qed.

Lemma update_response_fields app_id u s :
  store_ok s → only_status_risk u → str_or_none u →
  Forall has_response_fields (collection s) →
  Forall has_response_fields (collection (services.update_applicant app_id u s).2).
Proof.
  intros Hok Ho Hu Hall.
  destruct (update_applicant_spec app_id u s Hok)
    as (data & s1 & Hpost & [[_ Hrun]|(i & a & d & _ & Hid & _ & _ & Hrun)]).
  - rewrite Hrun. cbn [snd]. by rewrite (read_post_collection _ _ _ Hpost).
  - cbn zeta in Hrun. rewrite Hrun. cbn [snd]. unfold collection at 1.
    cbn [DATA_FILE]. apply Forall_insert; [done|].
    eapply merged_response_fields; [apply apply_items_merged|done..|].
    by eapply (Forall_lookup_1 _ _ _ _ Hall).
Qed.

Lemma run_call_response_fields c s :
  store_ok s → Forall has_response_fields (collection s) →
  Forall has_response_fields (collection (run_call c s)).
Proof.
  intros Hok Hall.
  destruct c as [|app_id|name unit_ today|app_id payload|app_id]; cbn.
  - destruct (list_applicants_spec s Hok) as (data & s1 & -> & Hpost).
    cbn [snd]. by rewrite (read_post_collection _ _ _ Hpost).
  - destruct (get_applicant_spec app_id s Hok)
      as (data & s1 & r & Hpost & -> & _).
    cbn [snd]. by rewrite (read_post_collection _ _ _ Hpost).
  - destruct (create_applicant_spec name unit_ today s Hok)
      as (data & s1 & Hpost & Hrun). cbn zeta in Hrun. rewrite Hrun.
    cbn [snd]. unfold collection at 1. cbn [DATA_FILE].
    apply Forall_app. split; [done|]. constructor; [|constructor].
    by split_and!.
  - apply update_response_fields; try done.
    + apply ApplicantUpdate_dict_only.
    + apply ApplicantUpdate_dict_str.
  - destruct (delete_applicant_spec app_id s Hok)
      as (data & s1 & Hpost & [[_ Hrun]|[_ Hrun]]); rewrite Hrun; cbn [snd].
    + by rewrite (read_post_collection _ _ _ Hpost).
    + unfold collection at 1. cbn [DATA_FILE set_file].
      apply Forall_forall. intros d [_ Hd]%list_elem_of_filter.
      by eapply (proj1 (Forall_forall _ _) Hall).
Qed.

(** X13. If every record of the collection has the fields of
    [ApplicantResponse] with their types (an integer [id], strings for the
    seven others), it still does after every store call a handler makes and
    after the decision task, whatever other calls run during its delay. *)
Theorem response_fields_kept py_format app_id c cs now s :
  store_ok s → Forall has_response_fields (collection s) →
  Forall has_response_fields (collection (run_call c s)) ∧
  Forall has_response_fields
    (collection (services.task py_format app_id (others cs) now s).2).
Proof.
  intros Hok Hall. split; [by apply run_call_response_fields|].
  assert (store_ok (services.get_applicant app_id s).2 ∧
          Forall has_response_fields
            (collection (services.get_applicant app_id s).2)) as [Hok1 Hall1].
  { destruct (get_applicant_spec app_id s Hok)
      as (data & s1 & r & Hpost & -> & _). cbn [snd].
    split; [by eapply read_post_ok|].
    by rewrite (read_post_collection _ _ _ Hpost). }
  destruct (decide (app_id ∈ ids (collection s))) as [Hin|Hno].
  - rewrite (task_found _ _ _ _ _ Hok Hin). unfold void. cbn [snd].
    remember (services.get_applicant app_id s).2 as s1 eqn:Hs1.
    clear Hs1 Hok Hall Hin.
    revert s1 Hok1 Hall1. induction cs as [|c0 cs IH]; intros s1 Hok1 Hall1.
    + cbn [foldl]. apply update_response_fields; try done.
      * apply decision_only.
      * apply decision_str.
    + cbn [foldl]. apply IH.
      * by apply run_call_ok.
      * by apply run_call_response_fields.
  - by rewrite (task_not_found _ _ _ _ _ Hok Hno).
Qed.

Lemma response_fields_kept_witness :
  let py_format : string → Z → exn + string := λ _ _, inl TypeError in
  let c := CallCreate "Zed" "1A" "2026-01-05" in
  let s := startup None in
  store_ok s ∧ Forall has_response_fields (collection s) ∧
  Forall has_response_fields (collection (run_call c s)) ∧
  Forall has_response_fields
    (collection (services.task py_format 1003 (others [c])
                   "2026-01-05T10:00:00" s).2).
Proof.
  intros py_format c s.
  assert (store_ok s) as Hok
    by (apply (bool_decide_unpack _); vm_compute; exact I).
  assert (Forall has_response_fields (collection s)) as Hall
    by (apply (bool_decide_unpack _); vm_compute; exact I).
  destruct (response_fields_kept py_format 1003 c [c] "2026-01-05T10:00:00"
              s Hok Hall) as [Hcall Htask].
  exact (conj Hok (conj Hall (conj Hcall Htask))).
Defined.

(** ** Reading back what was written *)

(** After an update that leaves ids alone, a get on the id finds the updated
    record. *)
Lemma update_then_get app_id u s :
  store_ok s → only_status_risk u → app_id ∈ ids (collection s) →
  ∃ i d a1 s1 a2 s2,
    collection s !! i = Some d ∧ id_of d = Some app_id ∧
    (app_id ∉ ids (take i (collection s))) ∧
    services.update_applicant app_id u s = (inr (Some a1), s1) ∧
    heap s1 !! a1 = Some (apply_items d (map_to_list u)) ∧
    collection s1 = <[i := apply_items d (map_to_list u)]> (collection s) ∧
    store_ok s1 ∧
    services.get_applicant app_id s1 = (inr (Some a2), s2) ∧
    heap s2 !! a2 = Some (apply_items d (map_to_list u)) ∧
    collection s2 = collection s1.
Proof.
  intros Hok Hu Hin.
  destruct (update_applicant_frame app_id u s Hok Hu) as (Hok1 & _ & _ & Hids).
  cbn zeta in Hok1, Hids.
  destruct (update_applicant_found app_id u s Hok Hin)
    as (data & s0 & i & a & d & Hpost & Hia & Ha & Hid & Hn & Hfst & Hrun).
  remember (apply_items d (map_to_list u)) as d' eqn:Hd'.
  rewrite Hrun in Hok1, Hids. cbn [snd] in Hok1, Hids.
  remember (State (<[a:=d']> (heap s0)) (DEFAULTS s)
                  (Some (<[i:=d']> (collection s)))) as s1 eqn:Hs1.
  pose proof (lookup_lt_Some _ _ _ Hid) as Hlt.
  assert (collection s1 = <[i := d']> (collection s)) as Hc1
    by (rewrite Hs1; reflexivity).
  assert (merged d u d') as Hm by (rewrite Hd'; apply apply_items_merged).
  assert (id_of d' = Some app_id) as Hn'
    by (rewrite (merged_id _ _ _ Hm Hu); exact Hn).
  assert (app_id ∈ ids (collection s1)) as Hin1 by (rewrite Hids; exact Hin).
  destruct (get_applicant_found app_id s1 Hok1 Hin1)
    as (data1 & s2 & j & a2 & e & Hpost1 & Hje & Hne & Hfst1 & Ha2 & Hget).
  assert (collection s1 !! i = Some d') as Hid'
    by (rewrite Hc1; apply list_lookup_insert_eq; exact Hlt).
  assert (app_id ∉ ids (take i (collection s1))) as Hfst'
    by (rewrite Hc1, take_insert_ge by lia; exact Hfst).
  assert (i = j) as <-
    by exact (first_record_unique (collection s1) app_id i j d' e
                (proj2 Hok1) Hid' Hn' Hfst' Hje Hne Hfst1).
  assert (e = d') as -> by congruence.
  exists i, d, a, s1, a2, s2. rewrite <- Hd'. split_and!; try done.
  - rewrite Hs1. cbn. apply list_lookup_insert_eq.
    exact (lookup_lt_Some _ _ _ Ha).
  - exact (read_post_collection _ _ _ Hpost1).
Qed.

(** X14. Run-decision followed by its scheduled task does what it
    announces: on an id of the collection the handler schedules exactly one
    task, for that id; once the task has run, a get on the id returns the
    record with status Decision Ready, risk Low for an even and Medium for an
    odd id, and every other field as it was. *)
Theorem run_decision_then_task py_format app_id now s :
  store_ok s → app_id ∈ ids (collection s) →
  ∃ i d0 s1 s2 a s3 d,
    collection s !! i = Some d0 ∧ id_of d0 = Some app_id ∧
    (app_id ∉ ids (take i (collection s))) ∧
    api.run_decision app_id [] s = (inr (queued app_id, [app_id]), s1) ∧
    services.task py_format app_id (others []) now s1 = (inr (), s2) ∧
    api.get_applicant app_id s2 = (inr a, s3) ∧
    heap s3 !! a = Some d ∧
    d !! "status" = Some (VStr "Decision Ready") ∧
    d !! "risk" = Some (VStr (if Z.even app_id then "Low" else "Medium")) ∧
    ∀ k, k ≠ "status" → k ≠ "risk" → d !! k = d0 !! k.
Proof.
  intros Hok Hin.
  destruct (get_applicant_found app_id s Hok Hin)
    as (data & s1 & i0 & a0 & e0 & Hpost & _ & Hn0 & _ & Ha0 & Hget).
  pose proof (read_post_ok _ _ _ Hpost Hok) as Hok1.
  pose proof (read_post_collection _ _ _ Hpost) as Hc1.
  assert (app_id ∈ ids (collection s1)) as Hin1 by by rewrite Hc1.
  pose proof (task_found py_format app_id [] now s1 Hok1 Hin1) as Htask.
  cbn [foldl] in Htask.
  destruct (get_applicant_found app_id s1 Hok1 Hin1)
    as (data' & s1' & i1 & a1 & e1 & Hpost' & _ & _ & _ & _ & Hget').
  rewrite Hget' in Htask. cbn [snd] in Htask.
  pose proof (read_post_ok _ _ _ Hpost' Hok1) as Hok1'.
  pose proof (read_post_collection _ _ _ Hpost') as Hc1'.
  assert (app_id ∈ ids (collection s1')) as Hin1' by by rewrite Hc1', Hc1.
  destruct (update_then_get app_id (decision app_id) s1' Hok1'
              (decision_only app_id) Hin1')
    as (i & d0 & a2 & s2 & a & s3 & Hid & Hn & Hfst & Hupd & _ & _ & Hok2
        & Hget2 & Ha & _).
  rewrite Hupd in Htask. unfold void in Htask. cbn [fst snd] in Htask.
  rewrite Hc1', Hc1 in Hid, Hfst.
  pose proof (apply_items_merged d0 (decision app_id)) as Hm.
  remember (apply_items d0 (map_to_list (decision app_id))) as d eqn:Hd.
  exists i, d0, s1, s2, a, s3, d.
  split_and!; try assumption.
  - unfold api.run_decision. rewrite (bind_ok _ _ _ _ _ Hget).
    rewrite (bind_ok _ _ _ _ _
               (or_404_found _ _ _ Ha0 (id_of_nonempty _ _ Hn0))).
    reflexivity.
  - unfold api.get_applicant. rewrite (bind_ok _ _ _ _ _ Hget2).
    apply (or_404_found _ _ _ Ha), (id_of_nonempty _ app_id).
    rewrite (merged_id _ _ _ Hm (decision_only app_id)). exact Hn.
  - by rewrite (Hm "status"), decision_status.
  - by rewrite (Hm "risk"), decision_risk.
  - intros k Hs Hr. eapply merged_frame; [exact Hm|]. by apply decision_only.
Qed.

Lemma run_decision_then_task_witness :
  let py_format : string → Z → exn + string := λ _ _, inl TypeError in
  let s := startup None in
  store_ok s ∧ 1005%Z ∈ ids (collection s) ∧
  ∃ i d0 s1 s2 a s3 d,
    collection s !! i = Some d0 ∧ id_of d0 = Some 1005%Z ∧
    (1005%Z ∉ ids (take i (collection s))) ∧
    api.run_decision 1005 [] s = (inr (queued 1005, [1005%Z]), s1) ∧
    services.task py_format 1005 (others []) "2026-01-05T10:00:00" s1
      = (inr (), s2) ∧
    api.get_applicant 1005 s2 = (inr a, s3) ∧
    heap s3 !! a = Some d ∧
    d !! "status" = Some (VStr "Decision Ready") ∧
    d !! "risk" = Some (VStr (if Z.even 1005 then "Low" else "Medium")) ∧
    ∀ k, k ≠ "status" → k ≠ "risk" → d !! k = d0 !! k.
Proof.
  intros py_format s.
  assert (store_ok s) as Hok
    by (apply (bool_decide_unpack _); vm_compute; exact I).
  assert (1005%Z ∈ ids (collection s)) as Hin
    by (apply (bool_decide_unpack _); vm_compute; exact I).
  split_and!; [exact Hok|exact Hin|].
  by apply run_decision_then_task.
Defined.

(** X15. A PATCH can be read back: on an id of the collection a get after
    the PATCH returns an object with the content the PATCH answered with,
    which carries each supplied value. *)
Theorem patch_then_get app_id payload s :
  store_ok s → app_id ∈ ids (collection s) →
  ∃ a1 s1 a2 s2 d,
    api.patch_applicant app_id payload s = (inr a1, s1) ∧
    heap s1 !! a1 = Some d ∧
    api.get_applicant app_id s1 = (inr a2, s2) ∧
    heap s2 !! a2 = Some d ∧
    (∀ x, api.status payload = Some x → d !! "status" = Some (VStr x)) ∧
    (∀ x, api.risk payload = Some x → d !! "risk" = Some (VStr x)).
Proof.
  intros Hok Hin.
  destruct (update_then_get app_id (api.ApplicantUpdate_dict payload) s Hok
              (ApplicantUpdate_dict_only payload) Hin)
    as (i & d0 & a1 & s1 & a2 & s2 & Hid & Hn & Hfst & Hupd & Ha1 & _ & Hok1
        & Hget & Ha2 & _).
  pose proof (apply_items_merged d0 (api.ApplicantUpdate_dict payload)) as Hm.
  remember (apply_items d0 (map_to_list (api.ApplicantUpdate_dict payload)))
    as d eqn:Hd.
  assert (d ≠ ∅) as Hne.
  { apply (id_of_nonempty _ app_id).
    by rewrite (merged_id _ _ _ Hm (ApplicantUpdate_dict_only payload)). }
  exists a1, s1, a2, s2, d. split_and!; try assumption.
  - unfold api.patch_applicant. rewrite (bind_ok _ _ _ _ _ Hupd).
    exact (or_404_found _ d _ Ha1 Hne).
  - unfold api.get_applicant. rewrite (bind_ok _ _ _ _ _ Hget).
    exact (or_404_found _ d _ Ha2 Hne).
  - intros x Hx. rewrite (Hm "status"). unfold api.ApplicantUpdate_dict.
    rewrite lookup_insert_eq, Hx. done.
  - intros x Hx. rewrite (Hm "risk"). unfold api.ApplicantUpdate_dict.
    rewrite lookup_insert_ne, lookup_insert_eq, Hx by done. done.
Qed.

Lemma patch_then_get_witness :
  let payload := api.Build_ApplicantUpdate (Some "Denied/Overridden") None in
  let s := startup None in
  store_ok s ∧ 1001%Z ∈ ids (collection s) ∧
  ∃ a1 s1 a2 s2 d,
    api.patch_applicant 1001 payload s = (inr a1, s1) ∧
    heap s1 !! a1 = Some d ∧
    api.get_applicant 1001 s1 = (inr a2, s2) ∧
    heap s2 !! a2 = Some d ∧
    (∀ x, api.status payload = Some x → d !! "status" = Some (VStr x)) ∧
    (∀ x, api.risk payload = Some x → d !! "risk" = Some (VStr x)).
Proof.
  intros payload s.
  assert (store_ok s) as Hok
    by (apply (bool_decide_unpack _); vm_compute; exact I).
  assert (1001%Z ∈ ids (collection s)) as Hin
    by (apply (bool_decide_unpack _); vm_compute; exact I).
  split_and!; [exact Hok|exact Hin|].
  by apply patch_then_get.
Defined.

(** ** Whole runs *)

Lemma ids_objects_stable (h h' : list dict) (l : list loc) :
  Forall (λ a, a < length h) l →
  (∀ a d, h !! a = Some d → ∃ d', h' !! a = Some d' ∧ d' !! "id" = d !! "id") →
  ids ((λ a, h' !!! a) <$> l) = ids ((λ a, h !!! a) <$> l).
Proof.
  intros Hlive Hst. induction Hlive as [|a l Ha _ IH]; [done|].
  cbn [fmap list_fmap]. rewrite !ids_cons_match, IH.
  apply lookup_lt_is_Some_2 in Ha as [d Hd].
  destruct (Hst a d Hd) as (d' & Hd' & Hid).
  rewrite (list_lookup_total_correct _ _ _ Hd).
  rewrite (list_lookup_total_correct _ _ _ Hd').
  unfold id_of. by rewrite Hid.
Qed.

Lemma run_call_unique c s :
  store_ok s → NoDup (ids (collection s)) →
  NoDup (ids (collection (run_call c s))).
Proof.
  intros Hok Hnd.
  destruct c as [|app_id|name unit_ today|app_id payload|app_id]; cbn.
  - destruct (list_applicants_spec s Hok) as (data & s1 & -> & Hpost).
    cbn [snd]. by rewrite (read_post_collection _ _ _ Hpost).
  - destruct (get_applicant_spec app_id s Hok)
      as (data & s1 & r & Hpost & -> & _).
    cbn [snd]. by rewrite (read_post_collection _ _ _ Hpost).
  - destruct (create_applicant_ok name unit_ today s Hok) as (_ & _ & ->).
    apply NoDup_app. split_and!; [done| |apply NoDup_singleton].
    intros n Hn ->%list_elem_of_singleton.
    pose proof (next_id_above (ids (collection s))) as Habove.
    rewrite Forall_forall in Habove. specialize (Habove _ Hn). lia.
  - by destruct (update_applicant_frame app_id _ s Hok
                   (ApplicantUpdate_dict_only payload)) as (_ & _ & _ & ->).
  - destruct (delete_applicant_ok app_id s Hok) as (_ & _ & ->).
    by apply NoDup_filter.
Qed.

(** X16. In every run of the process from startup (store calls of handlers
    and tasks, the data file removed from outside at any time) on a data file
    whose records have distinct integer ids, each state has records with
    distinct integer ids: neither the calls nor a re-seeding from
    [DEFAULTS] bring in a duplicate. *)
Theorem reachable_unique file es :
  records_ok (default [] file) → NoDup (ids (default [] file)) →
  store_ok (foldl (λ s e, run_event e s) (startup file) es) ∧
  NoDup (ids (collection (foldl (λ s e, run_event e s) (startup file) es))).
Proof.
  intros Hrec Hnd.
  assert (∀ s, store_ok s → NoDup (ids (collection s)) →
               records_ok (seed_objects s) →
               ids (seed_objects s) = [1001; 1002; 1003; 1004; 1005]%Z →
               store_ok (foldl (λ s e, run_event e s) s es) ∧
               NoDup (ids (collection (foldl (λ s e, run_event e s) s es))))
    as Hrun.
  { induction es as [|e es IH]; intros s Hok Hu Hsok Hseed; [done|].
    cbn [foldl]. destruct e as [c|]; cbn [run_event].
    - destruct (run_call_ok c s Hok) as [Hok' Hst].
      pose proof (run_call_DEFAULTS c s Hok) as HD.
      apply IH; [exact Hok'|by apply run_call_unique| |].
      + exact (seeds_ok_stable s _ (proj1 Hok) HD Hst Hsok).
      + rewrite <- Hseed. unfold seed_objects. rewrite HD.
        apply ids_objects_stable; [apply Hok|exact Hst].
    - apply IH.
      + split; [apply Hok|exact Hsok].
      + change (collection (set_file None s)) with (seed_objects s).
        rewrite Hseed. apply (bool_decide_unpack _). by vm_compute.
      + exact Hsok.
      + exact Hseed. }
  apply Hrun.
  - by apply startup_ok.
  - destruct file as [ds|]; [exact Hnd|]. apply (bool_decide_unpack _).
    by vm_compute.
  - apply seed_records_ok.
  - reflexivity.
Qed.

Lemma reachable_unique_witness :
  let file := Some (take 3 seed_records) in
  let es := [Call (CallCreate "Zed" "1A" "2026-01-05"); FileRemoved;
             Call (CallDelete 1002)] in
  records_ok (default [] file) ∧ NoDup (ids (default [] file)) ∧
  store_ok (foldl (λ s e, run_event e s) (startup file) es) ∧
  NoDup (ids (collection (foldl (λ s e, run_event e s) (startup file) es))).
Proof.
  intros file es.
  assert (records_ok (default [] file)) as Hrec
    by (apply (bool_decide_unpack _); vm_compute; exact I).
  assert (NoDup (ids (default [] file))) as Hnd
    by (apply (bool_decide_unpack _); vm_compute; exact I).
  destruct (reachable_unique file es Hrec Hnd) as [Hok Hu].
  exact (conj Hrec (conj Hnd (conj Hok Hu))).
Defined.

(** * The dashboard against the backend *)

(** The handlers are where [backend/api.py] puts them. *)
Example api_paths_resolve (x : string) :
  x ≠ "" →
  main.resolve main.GET ["api"; "applicants"] = main.Found main.list_applicants ∧
  main.resolve main.POST ["api"; "applicants"] = main.Found main.create_applicant ∧
  main.resolve main.PATCH ["api"; "applicants"; x]
    = main.Found main.patch_applicant ∧
  main.resolve main.POST ["api"; "applicants"; x; "run-decision"]
    = main.Found main.run_decision ∧
  main.resolve main.POST ["api"; "applicants"; x] = main.MethodNotAllowed ∧
  main.resolve main.GET ["api"; "applicants"; ""]
    = main.Redirect ["api"; "applicants"].
Proof.
  intros Hx. destruct x as [|ch rest]; [done|]. split_and!; reflexivity.
Qed.

(** X17. No request of the dashboard reaches a handler: the paths it asks
    for ([/applicants/], [/applicants/add], [/applicants/update/<id>],
    [/applicants/delete/<id>], [/applicants/approve/<id>]) match no route of
    the application, with or without a trailing slash, so each is answered
    404; and [fetch_applicants] turns a 404 into the empty list. *)
Theorem dashboard_requests_unrouted py_str app_id :
  Forall (λ r, main.resolve r.1 r.2 = main.NotFound)
    [dashboard.fetch_applicants_request;
     dashboard.add_applicant_request;
     dashboard.update_applicant_request py_str app_id;
     dashboard.delete_applicant_request py_str app_id;
     dashboard.approve_applicant_request py_str app_id] ∧
  ∀ json, dashboard.fetch_applicants (dashboard.Response 404 json) = [].
Proof.
  split; [|done].
  repeat constructor; try reflexivity;
    unfold dashboard.update_applicant_request,
      dashboard.delete_applicant_request, dashboard.approve_applicant_request;
    cbn [fst snd]; destruct (py_str app_id) as [|ch rest]; reflexivity.
Qed.

Lemma status_in_one v :
  (if dashboard.status_in v ["Decision Ready"] then 1 else 0) +
  (if dashboard.status_in v ["Verification Agent"] then 1 else 0) +
  (if dashboard.status_in v ["Document Agent"] then 1 else 0) +
  (if dashboard.status_in v ["Denied"; "Denied/Overridden"] then 1 else 0) ≤ 1.
Proof.
  unfold dashboard.status_in, py_eq. cbn [existsb].
  repeat case_bool_decide; simplify_eq; cbn; lia.
Qed.

Lemma count_status_total statuses applicants :
  Forall (λ d : dict, is_Some (d !! "status")) applicants →
  ∃ n, dashboard.count_status statuses applicants = inr n.
Proof.
  induction 1 as [|d l [v Hv] _ [n IH]]; [by eexists|].
  cbn [dashboard.count_status]. rewrite Hv, IH. by eexists.
Qed.

(** X18. On applicants that all carry a [status], the sidebar and pipeline
    counters are defined, they count disjoint groups (their sum is at most
    the total), the approval gate shows the first applicant in Decision
    Ready, and it is shown exactly when the ready counter is not zero. *)
Theorem dashboard_counts applicants :
  Forall (λ d : dict, is_Some (d !! "status")) applicants →
  ∃ ready verifying leased denied candidates,
    dashboard.ready_for_review applicants = inr ready ∧
    dashboard.in_verification applicants = inr verifying ∧
    dashboard.lease_generated applicants = inr leased ∧
    dashboard.denied applicants = inr denied ∧
    dashboard.approval_candidates applicants = inr candidates ∧
    ready + verifying + leased + denied
      ≤ dashboard.total_applications applicants ∧
    candidates
      = filter (λ d, d !! "status" = Some (VStr "Decision Ready")) applicants ∧
    length candidates = ready ∧
    dashboard.ready_applicant applicants = inr (head candidates) ∧
    (head candidates = None ↔ ready = 0).
Proof.
  intros Hall.
  assert (∃ ready verifying leased denied candidates,
    dashboard.ready_for_review applicants = inr ready ∧
    dashboard.in_verification applicants = inr verifying ∧
    dashboard.lease_generated applicants = inr leased ∧
    dashboard.denied applicants = inr denied ∧
    dashboard.approval_candidates applicants = inr candidates ∧
    ready + verifying + leased + denied
      ≤ dashboard.total_applications applicants ∧
    candidates
      = filter (λ d, d !! "status" = Some (VStr "Decision Ready")) applicants ∧
    length candidates = ready) as Hmain.
  { unfold dashboard.ready_for_review, dashboard.in_verification,
      dashboard.lease_generated, dashboard.denied,
      dashboard.total_applications.
    induction Hall as [|d l [v Hv] _ IH].
    - exists 0, 0, 0, 0, []. by split_and!.
    - destruct IH as (r & w & g & x & c & Hr & Hw & Hg & Hx & Hc & Hsum
                      & Hfil & Hlen).
      cbn [dashboard.count_status dashboard.approval_candidates].
      rewrite Hv, Hr, Hw, Hg, Hx, Hc.
      eexists _, _, _, _, _. split_and!; try reflexivity.
      + pose proof (status_in_one v) as Hone. cbn [length].
        destruct (dashboard.status_in v ["Decision Ready"]),
          (dashboard.status_in v ["Verification Agent"]),
          (dashboard.status_in v ["Document Agent"]),
          (dashboard.status_in v ["Denied"; "Denied/Overridden"]);
          cbn in Hone; lia.
      + unfold py_eq. case_bool_decide as Hd.
        * subst v. rewrite filter_cons_True by done. by rewrite Hfil.
        * rewrite filter_cons_False by congruence. done.
      + unfold dashboard.status_in, py_eq. cbn [existsb].
        rewrite orb_false_r. case_bool_decide; cbn [length]; lia. }
  destruct Hmain as (r & w & g & x & c & Hr & Hw & Hg & Hx & Hc & Hsum
                     & Hfil & Hlen).
  exists r, w, g, x, c. split_and!; try done.
  - unfold dashboard.ready_applicant. by rewrite Hc.
  - rewrite <- Hlen. destruct c; cbn; split; intros; done.
Qed.

Lemma dashboard_counts_witness :
  Forall (λ d : dict, is_Some (d !! "status")) seed_records ∧
  ∃ ready verifying leased denied candidates,
    dashboard.ready_for_review seed_records = inr ready ∧
    dashboard.in_verification seed_records = inr verifying ∧
    dashboard.lease_generated seed_records = inr leased ∧
    dashboard.denied seed_records = inr denied ∧
    dashboard.approval_candidates seed_records = inr candidates ∧
    ready + verifying + leased + denied
      ≤ dashboard.total_applications seed_records ∧
    candidates
      = filter (λ d, d !! "status" = Some (VStr "Decision Ready"))
          seed_records ∧
    length candidates = ready ∧
    dashboard.ready_applicant seed_records = inr (head candidates) ∧
    (head candidates = None ↔ ready = 0).
Proof.
  assert (Forall (λ d : dict, is_Some (d !! "status")) seed_records) as Hall
    by (apply (bool_decide_unpack _); vm_compute; exact I).
  split; [exact Hall|]. by apply dashboard_counts.
Defined.

(** X19. An applicant without a [status] makes every counter of the
    dashboard raise [KeyError]. *)
Theorem dashboard_missing_status statuses applicants :
  (∃ d : dict, d ∈ applicants ∧ d !! "status" = None) →
  dashboard.count_status statuses applicants = inl KeyError ∧
  dashboard.approval_candidates applicants = inl KeyError ∧
  dashboard.ready_applicant applicants = inl KeyError.
Proof.
  intros (d & Hin & Hd).
  assert (dashboard.count_status statuses applicants = inl KeyError ∧
          dashboard.approval_candidates applicants = inl KeyError) as [H1 H2].
  { induction applicants as [|x l IH]; [by apply elem_of_nil in Hin|].
    cbn [dashboard.count_status dashboard.approval_candidates].
    destruct (x !! "status") as [v|] eqn:Hx; [|done].
    apply elem_of_cons in Hin as [->|Hin]; [congruence|].
    destruct (IH Hin) as [-> ->]. done. }
  split_and!; [done|done|]. unfold dashboard.ready_applicant. by rewrite H2.
Qed.

Lemma dashboard_missing_status_witness :
  let applicants : list dict := seed_records ++ [ {["id" := VInt 7]} ] in
  (∃ d : dict, d ∈ applicants ∧ d !! "status" = None) ∧
  dashboard.count_status ["Denied"] applicants = inl KeyError ∧
  dashboard.approval_candidates applicants = inl KeyError ∧
  dashboard.ready_applicant applicants = inl KeyError.
Proof.
  intros applicants.
  assert (∃ d : dict, d ∈ applicants ∧ d !! "status" = None) as Hbad.
  { exists {["id" := VInt 7]}. split; [|reflexivity].
    apply elem_of_app. right. apply list_elem_of_here. }
  split; [exact Hbad|]. by apply dashboard_missing_status.
Defined.

Lemma py_index_None options x :
  dashboard.py_index options (VStr x) = None ↔ x ∉ options.
Proof.
  induction options as [|o l IH]; cbn [dashboard.py_index].
  - split; [intros _; apply not_elem_of_nil|done].
  - unfold py_eq. rewrite not_elem_of_cons. case_bool_decide as Ho.
    + split; [done|]. intros [Hne _]. congruence.
    + rewrite fmap_None, IH. split; [|by intros [_ ?]].
      intros Hl. split; [congruence|done].
Qed.

Lemma py_index_Some options x :
  x ∈ options → is_Some (dashboard.py_index options (VStr x)).
Proof.
  intros Hx. destruct (dashboard.py_index options (VStr x)) eqn:Hi;
    [by eexists|]. by apply py_index_None in Hi.
Qed.

(** X20. The handlers store any status string: after a PATCH with a status
    that is not among the [status_options] of the dashboard's update form,
    the record read back carries it, and the form's
    [status_options.index(...)] on that record raises [ValueError]. *)
Theorem patch_unlisted_status x risk app_id s :
  store_ok s → app_id ∈ ids (collection s) → x ∉ dashboard.status_options →
  ∃ a1 s1 a2 s2 d,
    api.patch_applicant app_id (api.Build_ApplicantUpdate (Some x) risk) s
      = (inr a1, s1) ∧
    api.get_applicant app_id s1 = (inr a2, s2) ∧
    heap s2 !! a2 = Some d ∧
    d !! "status" = Some (VStr x) ∧
    dashboard.current_status_index d = None.
Proof.
  intros Hok Hin Hx.
  set (payload := api.Build_ApplicantUpdate (Some x) risk).
  destruct (update_then_get app_id (api.ApplicantUpdate_dict payload) s Hok
              (ApplicantUpdate_dict_only payload) Hin)
    as (i & d0 & a1 & s1 & a2 & s2 & Hid & Hn & Hfst & Hupd & Ha1 & _ & Hok1
        & Hget & Ha2 & _).
  pose proof (apply_items_merged d0 (api.ApplicantUpdate_dict payload)) as Hm.
  remember (apply_items d0 (map_to_list (api.ApplicantUpdate_dict payload)))
    as d eqn:Hd.
  assert (d ≠ ∅) as Hne.
  { apply (id_of_nonempty _ app_id).
    by rewrite (merged_id _ _ _ Hm (ApplicantUpdate_dict_only payload)). }
  assert (d !! "status" = Some (VStr x)) as Hst.
  { rewrite (Hm "status"). unfold api.ApplicantUpdate_dict.
    by rewrite lookup_insert_eq. }
  exists a1, s1, a2, s2, d. split_and!; try assumption.
  - unfold api.patch_applicant. rewrite (bind_ok _ _ _ _ _ Hupd).
    exact (or_404_found _ d _ Ha1 Hne).
  - unfold api.get_applicant. rewrite (bind_ok _ _ _ _ _ Hget).
    exact (or_404_found _ d _ Ha2 Hne).
  - unfold dashboard.current_status_index. rewrite Hst. cbn [default].
    by apply py_index_None.
Qed.

Lemma patch_unlisted_status_witness :
  let s := startup None in
  store_ok s ∧ 1001%Z ∈ ids (collection s) ∧
  ("On Hold" ∉ dashboard.status_options) ∧
  ∃ a1 s1 a2 s2 d,
    api.patch_applicant 1001
      (api.Build_ApplicantUpdate (Some "On Hold") None) s = (inr a1, s1) ∧
    api.get_applicant 1001 s1 = (inr a2, s2) ∧
    heap s2 !! a2 = Some d ∧
    d !! "status" = Some (VStr "On Hold") ∧
    dashboard.current_status_index d = None.
Proof.
  intros s.
  assert (store_ok s) as Hok
    by (apply (bool_decide_unpack _); vm_compute; exact I).
  assert (1001%Z ∈ ids (collection s)) as Hin
    by (apply (bool_decide_unpack _); vm_compute; exact I).
  assert ("On Hold" ∉ dashboard.status_options) as Hx
    by (apply (bool_decide_unpack _); vm_compute; exact I).
  split_and!; [exact Hok|exact Hin|exact Hx|].
  by apply patch_unlisted_status.
Defined.

Lemma merged_form_ok d u d' :
  merged d u d' →
  (∀ v, u !! "status" = Some v →
        v = VNone ∨ ∃ x, v = VStr x ∧ x ∈ dashboard.status_options) →
  (∀ v, u !! "risk" = Some v →
        v = VNone ∨ ∃ x, v = VStr x ∧ x ∈ dashboard.risk_options) →
  form_ok d → form_ok d'.
Proof.
  intros Hm Hs Hr [Hfs Hfr]. split.
  - unfold dashboard.current_status_index in *. rewrite (Hm "status").
    destruct (u !! "status") as [v|]; [|done].
    destruct (Hs v eq_refl) as [->|(x & -> & Hx)]; [done|].
    rewrite bool_decide_eq_false_2 by done. cbn [default].
    by apply py_index_Some.
  - unfold dashboard.current_risk_index in *. rewrite (Hm "risk").
    destruct (u !! "risk") as [v|]; [|done].
    destruct (Hr v eq_refl) as [->|(x & -> & Hx)]; [done|].
    rewrite bool_decide_eq_false_2 by done. cbn [default].
    by apply py_index_Some.
Qed.

Lemma update_form_ok app_id u s :
  store_ok s →
  (∀ v, u !! "status" = Some v →
        v = VNone ∨ ∃ x, v = VStr x ∧ x ∈ dashboard.status_options) →
  (∀ v, u !! "risk" = Some v →
        v = VNone ∨ ∃ x, v = VStr x ∧ x ∈ dashboard.risk_options) →
  Forall form_ok (collection s) →
  Forall form_ok (collection (services.update_applicant app_id u s).2).
Proof.
  intros Hok Hs Hr Hall.
  destruct (update_applicant_spec app_id u s Hok)
    as (data & s1 & Hpost & [[_ Hrun]|(i & a & d & _ & Hid & _ & _ & Hrun)]).
  - rewrite Hrun. cbn [snd]. by rewrite (read_post_collection _ _ _ Hpost).
  - cbn zeta in Hrun. rewrite Hrun. cbn [snd]. unfold collection at 1.
    cbn [DATA_FILE]. apply Forall_insert; [done|].
    eapply merged_form_ok; [apply apply_items_merged|done..|].
    by eapply (Forall_lookup_1 _ _ _ _ Hall).
Qed.

Lemma run_call_form_ok c s :
  store_ok s → call_listed c → Forall form_ok (collection s) →
  Forall form_ok (collection (run_call c s)).
Proof.
  intros Hok Hc Hall.
  destruct c as [|app_id|name unit_ today|app_id payload|app_id]; cbn.
  - destruct (list_applicants_spec s Hok) as (data & s1 & -> & Hpost).
    cbn [snd]. by rewrite (read_post_collection _ _ _ Hpost).
  - destruct (get_applicant_spec app_id s Hok)
      as (data & s1 & r & Hpost & -> & _).
    cbn [snd]. by rewrite (read_post_collection _ _ _ Hpost).
  - destruct (create_applicant_spec name unit_ today s Hok)
      as (data & s1 & Hpost & Hrun). cbn zeta in Hrun. rewrite Hrun.
    cbn [snd]. unfold collection at 1. cbn [DATA_FILE].
    apply Forall_app. split; [done|]. constructor; [|constructor].
    split; by eexists.
  - destruct Hc as [Hcs Hcr]. destruct payload as [st rk]. cbn in Hcs, Hcr.
    apply update_form_ok; try done.
    + intros v Hv. unfold api.ApplicantUpdate_dict in Hv. cbn in Hv.
      rewrite lookup_insert_eq in Hv. simplify_eq.
      destruct st as [x|]; cbn; [right|by left]. exists x. split; [done|].
      by apply Hcs.
    + intros v Hv. unfold api.ApplicantUpdate_dict in Hv. cbn in Hv.
      rewrite lookup_insert_ne, lookup_insert_eq in Hv by done. simplify_eq.
      destruct rk as [x|]; cbn; [right|by left]. exists x. split; [done|].
      by apply Hcr.
  - destruct (delete_applicant_spec app_id s Hok)
      as (data & s1 & Hpost & [[_ Hrun]|[_ Hrun]]); rewrite Hrun; cbn [snd].
    + by rewrite (read_post_collection _ _ _ Hpost).
    + unfold collection at 1. cbn [DATA_FILE set_file].
      apply Forall_forall. intros d [_ Hd]%list_elem_of_filter.
      by eapply (proj1 (Forall_forall _ _) Hall).
Qed.

(** X21. The values the backend itself writes are among the options of the
    dashboard's update form: if the form can be drawn for every record
    ([status_options.index] and [risk_options.index] find the stored
    values), it still can after a create, a delete, a PATCH whose values come
    from the form, and after the decision task. *)
Theorem form_ok_kept py_format app_id c cs now s :
  store_ok s → Forall form_ok (collection s) →
  call_listed c → Forall call_listed cs →
  Forall form_ok (collection (run_call c s)) ∧
  Forall form_ok
    (collection (services.task py_format app_id (others cs) now s).2).
Proof.
  intros Hok Hall Hc Hcs. split; [by apply run_call_form_ok|].
  assert (store_ok (services.get_applicant app_id s).2 ∧
          Forall form_ok (collection (services.get_applicant app_id s).2))
    as [Hok1 Hall1].
  { destruct (get_applicant_spec app_id s Hok)
      as (data & s1 & r & Hpost & -> & _). cbn [snd].
    split; [by eapply read_post_ok|].
    by rewrite (read_post_collection _ _ _ Hpost). }
  destruct (decide (app_id ∈ ids (collection s))) as [Hin|Hno].
  - rewrite (task_found _ _ _ _ _ Hok Hin). unfold void. cbn [snd].
    remember (services.get_applicant app_id s).2 as s1 eqn:Hs1.
    clear Hs1 Hok Hall Hin.
    revert s1 Hok1 Hall1. induction Hcs as [|c0 cs Hc0 _ IH];
      intros s1 Hok1 Hall1.
    + cbn [foldl]. apply update_form_ok; try done.
      * intros v Hv. unfold decision in Hv.
        rewrite lookup_insert_eq in Hv. simplify_eq. right.
        eexists. split; [done|]. apply (bool_decide_unpack _). by vm_compute.
      * intros v Hv. unfold decision in Hv.
        rewrite lookup_insert_ne, lookup_insert_eq in Hv by done.
        simplify_eq. right. eexists. split; [done|].
        destruct (Z.even app_id); apply (bool_decide_unpack _); by vm_compute.
    + cbn [foldl]. apply IH.
      * by apply run_call_ok.
      * by apply run_call_form_ok.
  - by rewrite (task_not_found _ _ _ _ _ Hok Hno).
Qed.

Lemma form_ok_kept_witness :
  let py_format : string → Z → exn + string := λ _ _, inl TypeError in
  let c := CallUpdate 1002 (api.Build_ApplicantUpdate (Some "Denied") None) in
  let cs := [CallCreate "Zed" "1A" "2026-01-05"] in
  let s := startup None in
  store_ok s ∧ Forall form_ok (collection s) ∧
  call_listed c ∧ Forall call_listed cs ∧
  Forall form_ok (collection (run_call c s)) ∧
  Forall form_ok
    (collection (services.task py_format 1003 (others cs)
                   "2026-01-05T10:00:00" s).2).
Proof.
  intros py_format c cs s.
  assert (store_ok s) as Hok
    by (apply (bool_decide_unpack _); vm_compute; exact I).
  assert (Forall form_ok (collection s)) as Hall
    by (apply (bool_decide_unpack _); vm_compute; exact I).
  assert (call_listed c) as Hc.
  { split; intros x Hx; cbn in Hx; simplify_eq.
    apply (bool_decide_unpack _). by vm_compute. }
  assert (Forall call_listed cs) as Hcs by (repeat constructor).
  destruct (form_ok_kept py_format 1003 c cs "2026-01-05T10:00:00" s
              Hok Hall Hc Hcs) as [Hcall Htask].
  exact (conj Hok (conj Hall (conj Hc (conj Hcs (conj Hcall Htask))))).
Defined.
